(** * go-trace: the redirect-resolution engine of go-traceurl-cli

    A shallow embedding of [src/go-trace.go]:

    - [makeCleanURL]            (go-trace.go, lines 171-180)
    - [handleRelativeRedirect]  (go-trace.go, lines 408-438)
    - [followRedirects]         (go-trace.go, lines 269-406)

    [src/url-tracer.go] holds the same [handleRelativeRedirect] and the
    same [followRedirects], which there also records the class of the
    status code in every hop.  The later revision kept in the same
    [go-trace.go] differs in the paths that end the process: its messages,
    its exit code 0, and one more such path for a refused connection.

    Go strings are byte sequences and are modelled by [string]; Go's [int]
    is modelled by [Z] with its 64-bit wrap-around written out ([wrapInt]);
    the [visitedURLs] map is a [gmap string Z]; a nil pointer or nil slice
    is [None].  The packages [net/url] and [net/http] are not part of the
    repository: the program is modelled over an interface ([NetLib]) that
    lists the operations it calls, and a reference implementation of that
    interface ([RefLib]) is given to run the program on concrete inputs. *)

From Stdlib Require Import ZArith Ascii.
From stdpp Require Import gmap strings list.

Local Open Scope Z_scope.

(** ** The [strings] package (the functions the program and the reference
       URL library call) *)

Module strings.

(** [strings.HasPrefix(s, prefix)]. *)
Definition HasPrefix (s prefix : string) : bool := String.prefix prefix s.

(** [strings.Index(s, substr)]: offset of the first occurrence, [None]
    for Go's [-1]. *)
Fixpoint Index (s substr : string) : option nat :=
  if String.prefix substr s then Some 0%nat
  else match s with
       | EmptyString => None
       | String _ s' => S <$> Index s' substr
       end.

(** [strings.Contains(s, substr)]. *)
Definition Contains (s substr : string) : bool :=
  match Index s substr with Some _ => true | None => false end.

(** The loop of [genSplit] for a non-empty separator: [skip] counts the
    bytes of a matched separator that are still to be dropped, [cur] is
    the piece being collected. *)
Fixpoint splitLoop (sep : string) (skip : nat) (cur s : string) : list string :=
  match s with
  | EmptyString => [cur]
  | String c s' =>
      match skip with
      | S k => splitLoop sep k cur s'
      | O =>
          if String.prefix sep s
          then cur :: splitLoop sep (String.length sep - 1) EmptyString s'
          else splitLoop sep 0 (cur +:+ String c EmptyString) s'
      end
  end.

(** [strings.Split(s, sep)].  With an empty separator Go explodes [s]
    into UTF-8 sequences; the program never does that, and the model
    explodes into bytes there. *)
Definition Split (s sep : string) : list string :=
  match sep with
  | EmptyString => (fun c => String c EmptyString) <$> String.list_ascii_of_string s
  | _ => splitLoop sep 0 EmptyString s
  end.

(** [strings.ReplaceAll(s, old, new)] for a non-empty [old]:
    non-overlapping occurrences, left to right. *)
Fixpoint replaceLoop (old new : string) (skip : nat) (s : string) : string :=
  match s with
  | EmptyString => EmptyString
  | String c s' =>
      match skip with
      | S k => replaceLoop old new k s'
      | O =>
          if String.prefix old s
          then new +:+ replaceLoop old new (String.length old - 1) s'
          else String c (replaceLoop old new 0 s')
      end
  end.

Definition ReplaceAll (s old new : string) : string :=
  match old with
  | EmptyString => s
  | _ => replaceLoop old new 0 s
  end.

(** [strings.LastIndex(s, substr)]. *)
Fixpoint LastIndex (s substr : string) : option nat :=
  match s with
  | EmptyString => if String.prefix substr s then Some 0%nat else None
  | String _ s' =>
      match LastIndex s' substr with
      | Some i => Some (S i)
      | None => if String.prefix substr s then Some 0%nat else None
      end
  end.

(** [strings.Cut(s, sep)]: the text before and after the first [sep], and
    whether [sep] was found. *)
Definition Cut (s sep : string) : string * string * bool :=
  match Index s sep with
  | Some i =>
      (String.substring 0 i s,
       String.substring (i + String.length sep)
                        (String.length s - (i + String.length sep)) s,
       true)
  | None => (s, EmptyString, false)
  end.

(** [strings.HasSuffix(s, suffix)]. *)
Definition HasSuffix (s suffix : string) : bool :=
  let n := String.length s in
  let m := String.length suffix in
  (m <=? n)%nat && String.eqb (String.substring (n - m) m s) suffix.

(** [strings.TrimSuffix(s, suffix)]. *)
Definition TrimSuffix (s suffix : string) : string :=
  if HasSuffix s suffix
  then String.substring 0 (String.length s - String.length suffix) s
  else s.

(** [strings.Count(s, substr)] for a non-empty [substr]: the number of
    non-overlapping occurrences. *)
Fixpoint countLoop (substr : string) (skip : nat) (s : string) : nat :=
  match s with
  | EmptyString => 0%nat
  | String _ s' =>
      match skip with
      | S k => countLoop substr k s'
      | O =>
          if String.prefix substr s
          then S (countLoop substr (String.length substr - 1) s')
          else countLoop substr 0 s'
      end
  end.

Definition Count (s substr : string) : nat :=
  match substr with
  | EmptyString => S (String.length s)
  | _ => countLoop substr 0 s
  end.

(** [strings.ToLower(s)] on ASCII text. *)
Definition lowerByte (c : ascii) : ascii :=
  let n := N_of_ascii c in
  if ((65 <=? n) && (n <=? 90))%N then ascii_of_N (n + 32) else c.

Fixpoint ToLower (s : string) : string :=
  match s with
  | EmptyString => EmptyString
  | String c s' => String (lowerByte c) (ToLower s')
  end.

End strings.

(** ** Clean-URL derivation *)

(** [makeCleanURL] (go-trace.go, lines 171-180). *)
Definition makeCleanURL (url : string) : string :=
  let parts := strings.Split url "?" in
  match parts with
  | p0 :: _ :: _ => p0      (* len(parts) > 1 *)
  | _ => url
  end.


(** ** Machine integers *)

(** Go's [int] on the 64-bit targets the README builds for
    ([GOARCH=arm64]): arithmetic wraps around in two's complement. *)
Definition intSize : Z := 64.
Definition maxInt : Z := 2 ^ (intSize - 1) - 1.
Definition wrapInt (z : Z) : Z :=
  (z + 2 ^ (intSize - 1)) mod 2 ^ intSize - 2 ^ (intSize - 1).

(** ** Errors *)

(** Go [error] values, by the call that made them.  [Error] is the
    message, as [err.Error()] gives it. *)
Inductive error : Type :=
| lib_error (msg : string)                 (* made by net/url or net/http *)
| errors_New (msg : string)                (* errors.New(msg) *)
| fmt_Errorf (prefix : string) (e : error) (* fmt.Errorf(prefix + "%s", e) *).

Fixpoint Error (e : error) : string :=
  match e with
  | lib_error msg => msg
  | errors_New msg => msg
  | fmt_Errorf prefix e' => prefix +:+ Error e'
  end.

(** A value, or the error that replaces it.  The packages of the standard
    library report an error by its message ([E] is [string]); the program
    handles [error] values. *)
Inductive Result (E A : Type) : Type :=
| Ok (a : A)
| Err (e : E).
Arguments Ok {E A} a.
Arguments Err {E A} e.

(** An error of the standard library, as the program receives it. *)
Definition lib {A : Type} (r : Result string A) : Result error A :=
  match r with
  | Ok a => Ok a
  | Err msg => Err (lib_error msg)
  end.

(** ** The data of [net/url] and [net/http] *)

Module url.

Record Userinfo : Type := mkUserinfo {
  username : string;
  password : string;
  passwordSet : bool
}.

(** [url.URL]; a nil [*Userinfo] is [None]. *)
Record URL : Type := mkURL {
  Scheme : string;
  Opaque : string;
  User : option Userinfo;
  Host : string;
  Path : string;
  RawPath : string;
  OmitHost : bool;
  ForceQuery : bool;
  RawQuery : string;
  Fragment : string;
  RawFragment : string
}.

(** The assignments [u.Scheme = s] and [u.Host = h]. *)
Definition setScheme (u : URL) (s : string) : URL :=
  mkURL s (Opaque u) (User u) (Host u) (Path u) (RawPath u) (OmitHost u)
        (ForceQuery u) (RawQuery u) (Fragment u) (RawFragment u).

Definition setHost (u : URL) (h : string) : URL :=
  mkURL (Scheme u) (Opaque u) (User u) h (Path u) (RawPath u) (OmitHost u)
        (ForceQuery u) (RawQuery u) (Fragment u) (RawFragment u).

(** [url.Values] is [map[string][]string]; [Get] returns the first value
    of the key, or the empty string. *)
Definition Values_Get (v : gmap string (list string)) (key : string) : string :=
  match v !! key with
  | Some (x :: _) => x
  | _ => EmptyString
  end.

End url.

Module http.

Definition StatusOK : Z := 200.
Definition StatusLoopDetected : Z := 508.

(** What the program reads of an [http.Response]. *)
Record Response : Type := mkResponse {
  StatusCode : Z;
  Header : gmap string (list string)
}.

(** [Header.Get(key)] for a key that is already in canonical form
    (["Location"], ["Server"]): the first value, or the empty string when
    the header is absent. *)
Definition Header_Get (h : gmap string (list string)) (key : string) : string :=
  match h !! key with
  | Some (x :: _) => x
  | _ => EmptyString
  end.

(** The error of [client.Do], always a [*url.Error]: its [Timeout()] and
    its [Error()]. *)
Record ClientError : Type := mkClientError {
  Timeout : bool;
  Message : string
}.

Inductive DoResult : Type :=
| DoOk (resp : Response)
| DoErr (e : ClientError).

End http.

(** The operations of [net/url] and [net/http] the program calls.
    [http_NewRequest urlStr] stands for
    [http.NewRequest("GET", urlStr, nil)] and gives the request's [URL]. *)
Class NetLib : Type := {
  url_Parse : string -> Result string url.URL;
  url_String : url.URL -> string;
  url_Query : url.URL -> gmap string (list string);
  url_PathUnescape : string -> Result string string;
  http_NewRequest : string -> Result string url.URL
}.

(** The network, as [client.Do] sees it: the answer to a request, given
    how many requests the resolution has already made. The client never
    follows a redirect itself ([CheckRedirect] stops at the first one), so
    a 3xx answer comes back as it is. *)
Definition Network : Type := nat -> url.URL -> http.DoResult.

(** ** Sequencing of fallible steps *)

Definition bind {E A B : Type} (r : Result E A) (k : A -> Result E B) : Result E B :=
  match r with
  | Ok a => k a
  | Err e => Err e
  end.

Notation "'let*' x := r 'in' k" := (bind r (fun x => k))
  (at level 10, x pattern, r at level 100, k at level 200, only parsing).

(** [s == ""] and [s != ""]. *)
Definition isEmpty (s : string) : bool :=
  match s with
  | EmptyString => true
  | String _ _ => false
  end.

(** ** Relative-redirect resolution *)

(** [handleRelativeRedirect] (go-trace.go, lines 408-438).  The
    [log.Printf] of the parse error writes to the log only. *)
Definition handleRelativeRedirect `{NetLib}
    (previousURL : option url.URL) (location : string)
    (requestURL : option url.URL) : Result error url.URL :=
  let* redirectURL := lib (url_Parse location) in
  let* redirectURL :=
    (if isEmpty (url.Scheme redirectURL) then
       match previousURL, requestURL with
       | Some p, _ => Ok (url.setScheme redirectURL (url.Scheme p))
       | None, Some r => Ok (url.setScheme redirectURL (url.Scheme r))
       | None, None => Err (errors_New "missing scheme for relative redirect")
       end
     else Ok redirectURL) in
  if isEmpty (url.Host redirectURL) then
    match previousURL, requestURL with
    | Some p, _ => Ok (url.setHost redirectURL (url.Host p))
    | None, Some r => Ok (url.setHost redirectURL (url.Host r))
    | None, None => Err (errors_New "missing host for relative redirect")
    end
  else Ok redirectURL.

(** ** The redirect-resolution loop *)

Record Hop : Type := mkHop {
  Number : Z;
  URL : string;
  StatusCode : Z
}.

(** What [followRedirects] does in the end: it returns its four results
    (a nil slice or a nil error is [None]), or it ends the process through
    [doTimeout] or [doValidationError], which print a line and call
    [os.Exit(1)]. *)
Inductive Outcome : Type :=
| Return (finalURL : string) (hops : option (list Hop))
         (cloudflareStatus : bool) (err : option error)
| Exit (printed : string) (code : Z).

(** The variables of [followRedirects] that live across iterations. *)
Record State : Type := mkState {
  urlStr : string;
  hops : list Hop;
  number : Z;
  previousURL : option url.URL;
  visitedURLs : gmap string Z;
  cloudflareStatus : bool
}.

(** Reading a Go map: a missing key reads as zero. *)
Definition visits (m : gmap string Z) (k : string) : Z := default 0 (m !! k).

(** The state before the loop (lines 270-282). *)
Definition initState (urlStr : string) : State :=
  mkState urlStr [] 1 None (<[urlStr := 1]> ∅) false.

(** Lines 366-392: the rewrite of a redirect target that carries a
    [returnUri] or a [redir] query parameter. *)
Definition unwrapParams `{NetLib} (redirectURLString : string) : Result error string :=
  match url_Parse redirectURLString with
  | Err err => Err (fmt_Errorf "error parsing URL: " (lib_error err))
  | Ok u =>
      let queryParams := url_Query u in
      let* redirectURLString :=
        (let returnURI := url.Values_Get queryParams "returnUri" in
         if isEmpty returnURI then Ok redirectURLString
         else
           match url_PathUnescape returnURI with
           | Err err => Err (fmt_Errorf "error decoding returnUri: " (lib_error err))
           | Ok decodedReturnURI =>
               let decodedReturnURI := strings.ReplaceAll decodedReturnURI "%3A" ":" in
               let decodedReturnURI := strings.ReplaceAll decodedReturnURI "%2F" "/" in
               Ok (url.Scheme u +:+ "://" +:+ url.Host u +:+ url.Path u
                   +:+ "?returnUri=" +:+ decodedReturnURI)
           end) in
      let redirURI := url.Values_Get queryParams "redir" in
      if isEmpty redirURI then Ok redirectURLString
      else
        match url_PathUnescape redirURI with
        | Err err => Err (fmt_Errorf "error decoding redir param: " (lib_error err))
        | Ok decodedRedirURI =>
            let decodedRedirURI := strings.ReplaceAll decodedRedirURI "%3A" ":" in
            let decodedRedirURI := strings.ReplaceAll decodedRedirURI "%2F" "/" in
            Ok (url.Scheme u +:+ "://" +:+ url.Host u +:+ url.Path u
                +:+ "?redir=" +:+ decodedRedirURI)
        end
  end.

Inductive Step : Type :=
| Continue (st : State)
| Done (o : Outcome).

(** Lines 358-400: from the [Location] of a redirect to the URL of the
    next iteration and its parsed form, the next [previousURL]. *)
Definition redirectTarget `{NetLib} (previousURL : option url.URL)
    (location : string) (reqURL : url.URL) : Result error (string * url.URL) :=
  match handleRelativeRedirect previousURL location (Some reqURL) with
  | Err err => Err (fmt_Errorf "error handling relative redirect: " err)
  | Ok redirectURL =>
      let* redirectURLString := unwrapParams (url_String redirectURL) in
      match url_Parse redirectURLString with
      | Err err => Err (fmt_Errorf "error parsing URL: " (lib_error err))
      | Ok previousURL' => Ok (redirectURLString, previousURL')
      end
  end.

(** One pass through the body of the [for] loop (lines 284-405).  Every
    iteration that goes on has recorded one hop, so the request of this
    iteration is request number [length (hops st)] of the resolution. *)
Definition iteration `{NetLib} (net : Network) (st : State) : Step :=
  let cf := cloudflareStatus st in
  if 1 <? visits (visitedURLs st) (urlStr st) then
    Done (Return (urlStr st)
                 (Some (hops st ++ [mkHop (number st) (urlStr st) http.StatusLoopDetected]))
                 cf None)
  else
    let visited :=
      <[urlStr st := wrapInt (visits (visitedURLs st) (urlStr st) + 1)]> (visitedURLs st) in
    match http_NewRequest (urlStr st) with
    | Err err =>
        Done (Return "" None cf
                (Some (fmt_Errorf "error creating request: " (lib_error err))))
    | Ok reqURL =>
        match net (length (hops st)) reqURL with
        | http.DoErr e =>
            if http.Timeout e then Done (Exit "Timeout error" 1)
            else if strings.Contains (http.Message e)
                      "x509: certificate signed by unknown authority"
            then Done (Exit "Validation error" 1)
            else Done (Return "" None cf
                         (Some (fmt_Errorf "error accessing URL: " (lib_error (http.Message e)))))
        | http.DoOk resp =>
            let hops' := hops st ++ [mkHop (number st) (urlStr st) (http.StatusCode resp)] in
            if (300 <=? http.StatusCode resp) && (http.StatusCode resp <=? 399) then
              let location := http.Header_Get (http.Header resp) "Location" in
              if isEmpty location then
                Done (Return "" (Some [])
                        (if strings.Contains (http.Header_Get (http.Header resp) "Server")
                              "cloudflare"
                         then true else cf)
                        None)
              else if strings.HasPrefix location "https://outlook.office365.com" then
                Done (Return location
                        (Some (hops' ++ [mkHop (wrapInt (number st + 2)) location http.StatusOK]))
                        cf None)
              else
                match redirectTarget (previousURL st) location reqURL with
                | Err err => Done (Return "" None cf (Some err))
                | Ok (redirectURLString, previousURL') =>
                    Continue (mkState redirectURLString hops' (wrapInt (number st + 1))
                                      (Some previousURL') visited cf)
                end
            else Done (Return (urlStr st) (Some hops') cf None)
        end
    end.

(** The [for] loop, for at most [fuel] iterations; [None] when the fuel
    runs out before the loop is left. *)
Fixpoint run `{NetLib} (net : Network) (fuel : nat) (st : State) : option Outcome :=
  match fuel with
  | O => None
  | S fuel' =>
      match iteration net st with
      | Done o => Some o
      | Continue st' => run net fuel' st'
      end
  end.

(** [followRedirects] (go-trace.go, lines 269-406). *)
Definition followRedirects `{NetLib} (net : Network) (fuel : nat)
    (urlStr : string) : option Outcome :=
  run net fuel (initState urlStr).

(** The state at the head of iteration [n] (counted from 0) of the loop
    started in [st], when the loop gets that far. *)
Fixpoint stateAt `{NetLib} (net : Network) (n : nat) (st : State) : option State :=
  match n with
  | O => Some st
  | S n' =>
      match iteration net st with
      | Continue st' => stateAt net n' st'
      | Done _ => None
      end
  end.

(** ** A reference implementation of [NetLib]

    After [net/url] and [net/http] of the Go standard library (Go 1.21).
    The messages of the errors leave out the quoted offending text. *)

Module netref.

Definition code (c : ascii) : N := N_of_ascii c.

Definition between (lo hi c : ascii) : bool :=
  ((code lo <=? code c) && (code c <=? code hi))%N.

Definition isAlpha (c : ascii) : bool :=
  between "a" "z" c || between "A" "Z" c.

Definition isDigit (c : ascii) : bool := between "0" "9" c.

Definition oneOf (cs : string) (c : ascii) : bool :=
  existsb (Ascii.eqb c) (String.list_ascii_of_string cs).

Definition dquote : ascii := ascii_of_N 34.

Definition ishex (c : ascii) : bool :=
  isDigit c || between "a" "f" c || between "A" "F" c.

Definition unhex (c : ascii) : N :=
  if isDigit c then code c - 48
  else if between "a" "f" c then code c - 97 + 10
  else if between "A" "F" c then code c - 65 + 10
  else 0.

Definition upperhex (n : N) : ascii :=
  if (n <? 10)%N then ascii_of_N (48 + n) else ascii_of_N (65 + (n - 10)).

Inductive encoding : Type :=
| encodePath
| encodePathSegment
| encodeHost
| encodeZone
| encodeUserPassword
| encodeQueryComponent
| encodeFragment.

Definition isHostMode (mode : encoding) : bool :=
  match mode with
  | encodeHost | encodeZone => true
  | _ => false
  end.

(** [shouldEscape(c, mode)]. *)
Definition shouldEscape (c : ascii) (mode : encoding) : bool :=
  if isAlpha c || isDigit c then false
  else if isHostMode mode && (oneOf "!$&'()*+,;=:[]<>" c || Ascii.eqb c dquote) then false
  else if oneOf "-_.~" c then false
  else if oneOf "$&+,/:;=?@" c then
    match mode with
    | encodePath => Ascii.eqb c "?"
    | encodePathSegment => oneOf "/;,?" c
    | encodeUserPassword => oneOf "@/?:" c
    | encodeQueryComponent => true
    | encodeFragment => false
    | encodeHost | encodeZone => true
    end
  else if match mode with encodeFragment => oneOf "!()*" c | _ => false end then false
  else true.

Definition EscapeError : string := "invalid URL escape".
Definition InvalidHostError : string := "invalid character in host name".

(** [unescape(s, mode)]: Go validates [s] in a first pass and decodes it
    in a second one; here one pass does both, left to right. *)
Fixpoint unescape (s : string) (mode : encoding) : Result string string :=
  match s with
  | EmptyString => Ok EmptyString
  | String c rest =>
      if Ascii.eqb c "%" then
        match rest with
        | String h1 (String h2 rest') =>
            if negb (ishex h1 && ishex h2) then Err EscapeError
            else
              let v := (16 * unhex h1 + unhex h2)%N in
              let is25 := Ascii.eqb h1 "2" && Ascii.eqb h2 "5" in
              if match mode with
                 | encodeHost => (unhex h1 <? 8)%N && negb is25
                 | encodeZone =>
                     negb is25 && negb (v =? 32)%N
                     && shouldEscape (ascii_of_N v) encodeHost
                 | _ => false
                 end
              then Err EscapeError
              else let* t := unescape rest' mode in Ok (String (ascii_of_N v) t)
        | _ => Err EscapeError
        end
      else if Ascii.eqb c "+" then
        let* t := unescape rest mode in
        Ok (String (match mode with encodeQueryComponent => " "%char | _ => c end) t)
      else if isHostMode mode && (code c <? 128)%N && shouldEscape c encodeHost
      then Err InvalidHostError
      else let* t := unescape rest mode in Ok (String c t)
  end.

(** [escape(s, mode)]. *)
Fixpoint escape (s : string) (mode : encoding) : string :=
  match s with
  | EmptyString => EmptyString
  | String c rest =>
      if shouldEscape c mode then
        if Ascii.eqb c " " && match mode with encodeQueryComponent => true | _ => false end
        then String "+" (escape rest mode)
        else String "%" (String (upperhex (code c / 16))
                           (String (upperhex (code c mod 16)) (escape rest mode)))
      else String c (escape rest mode)
  end.

(** [validEncoded(s, mode)]. *)
Fixpoint validEncoded (s : string) (mode : encoding) : bool :=
  match s with
  | EmptyString => true
  | String c rest =>
      (oneOf "!$&'()*+,;=:@[]%" c || negb (shouldEscape c mode))
      && validEncoded rest mode
  end.

Definition PathUnescape (s : string) : Result string string := unescape s encodePathSegment.
Definition QueryUnescape (s : string) : Result string string := unescape s encodeQueryComponent.

(** [getScheme(rawURL)]; [i] is the offset of [s] in [rawURL]. *)
Fixpoint getSchemeLoop (rawURL : string) (i : nat) (s : string)
    : Result string (string * string) :=
  match s with
  | EmptyString => Ok (EmptyString, rawURL)
  | String c s' =>
      if isAlpha c then getSchemeLoop rawURL (S i) s'
      else if isDigit c || oneOf "+-." c then
        match i with
        | O => Ok (EmptyString, rawURL)
        | _ => getSchemeLoop rawURL (S i) s'
        end
      else if Ascii.eqb c ":" then
        match i with
        | O => Err "missing protocol scheme"
        | _ => Ok (String.substring 0 i rawURL, s')
        end
      else Ok (EmptyString, rawURL)
  end.

Definition getScheme (rawURL : string) : Result string (string * string) :=
  getSchemeLoop rawURL 0 rawURL.

(** [stringContainsCTLByte(s)]. *)
Fixpoint stringContainsCTLByte (s : string) : bool :=
  match s with
  | EmptyString => false
  | String c s' => (code c <? 32)%N || (code c =? 127)%N || stringContainsCTLByte s'
  end.

(** [validOptionalPort(port)]. *)
Definition validOptionalPort (port : string) : bool :=
  match port with
  | EmptyString => true
  | String c digits =>
      Ascii.eqb c ":" && forallb isDigit (String.list_ascii_of_string digits)
  end.

(** [validUserinfo(s)]. *)
Definition validUserinfo (s : string) : bool :=
  forallb (fun c => isAlpha c || isDigit c || oneOf "-._:~!$&'()*+,;=%@" c)
          (String.list_ascii_of_string s).

(** [s[i:]] and [s[:i]]. *)
Definition from (i : nat) (s : string) : string :=
  String.substring i (String.length s - i) s.
Definition upto (i : nat) (s : string) : string := String.substring 0 i s.

(** [parseHost(host)]. *)
Definition parseHost (host : string) : Result string string :=
  let general := unescape host encodeHost in
  if strings.HasPrefix host "[" then
    match strings.LastIndex host "]" with
    | None => Err "missing ']' in host"
    | Some i =>
        if negb (validOptionalPort (from (S i) host))
        then Err "invalid port after host"
        else
          match strings.Index (upto i host) "%25" with
          | Some zone =>
              let* host1 := unescape (upto zone host) encodeHost in
              let* host2 := unescape (String.substring zone (i - zone) host) encodeZone in
              let* host3 := unescape (from i host) encodeHost in
              Ok (host1 +:+ host2 +:+ host3)
          | None => general
          end
    end
  else
    match strings.LastIndex host ":" with
    | Some i =>
        if negb (validOptionalPort (from i host))
        then Err "invalid port after host"
        else general
    | None => general
    end.

(** [parseAuthority(authority)]. *)
Definition parseAuthority (authority : string)
    : Result string (option url.Userinfo * string) :=
  match strings.LastIndex authority "@" with
  | None => let* host := parseHost authority in Ok (None, host)
  | Some i =>
      let* host := parseHost (from (S i) authority) in
      let userinfo := upto i authority in
      if negb (validUserinfo userinfo) then Err "net/url: invalid userinfo"
      else if negb (strings.Contains userinfo ":") then
        let* userinfo := unescape userinfo encodeUserPassword in
        Ok (Some (url.mkUserinfo userinfo EmptyString false), host)
      else
        let '(username, password, _) := strings.Cut userinfo ":" in
        let* username := unescape username encodeUserPassword in
        let* password := unescape password encodeUserPassword in
        Ok (Some (url.mkUserinfo username password true), host)
  end.

Definition emptyURL : url.URL :=
  url.mkURL EmptyString EmptyString None EmptyString EmptyString EmptyString
            false false EmptyString EmptyString EmptyString.

(** [u.setPath(p)]: the [Path] and the [RawPath] hint. *)
Definition setPath (p : string) : Result string (string * string) :=
  let* path := unescape p encodePath in
  if String.eqb p (escape path encodePath) then Ok (path, EmptyString)
  else Ok (path, p).

(** [u.setFragment(f)]: the [Fragment] and the [RawFragment] hint. *)
Definition setFragment (f : string) : Result string (string * string) :=
  let* frag := unescape f encodeFragment in
  if String.eqb f (escape frag encodeFragment) then Ok (frag, EmptyString)
  else Ok (frag, f).

(** [parse(rawURL, viaRequest)] with [viaRequest = false], as [Parse]
    calls it. *)
Definition parse (rawURL : string) : Result string url.URL :=
  if stringContainsCTLByte rawURL
  then Err "net/url: invalid control character in URL"
  else if String.eqb rawURL "*"
  then Ok (url.mkURL EmptyString EmptyString None EmptyString "*" EmptyString
                     false false EmptyString EmptyString EmptyString)
  else
    let* (scheme, rest) := getScheme rawURL in
    let scheme := strings.ToLower scheme in
    let '(rest, rawQuery, forceQuery) :=
      if strings.HasSuffix rest "?" && (strings.Count rest "?" =? 1)%nat
      then (upto (String.length rest - 1) rest, EmptyString, true)
      else let '(r, q, _) := strings.Cut rest "?" in (r, q, false) in
    if negb (strings.HasPrefix rest "/") && negb (isEmpty scheme) then
      (* a rootless path is opaque *)
      Ok (url.mkURL scheme rest None EmptyString EmptyString EmptyString
                    false forceQuery rawQuery EmptyString EmptyString)
    else if negb (strings.HasPrefix rest "/")
            && strings.Contains (fst (fst (strings.Cut rest "/"))) ":"
    then Err "first path segment in URL cannot contain colon"
    else
      let* (user, host, rest, omitHost) :=
        (if (negb (isEmpty scheme) || negb (strings.HasPrefix rest "///"))
            && strings.HasPrefix rest "//"
         then
           let authority := from 2 rest in
           let '(authority, rest) :=
             match strings.Index authority "/" with
             | Some i => (upto i authority, from i authority)
             | None => (authority, EmptyString)
             end in
           let* (user, host) := parseAuthority authority in
           Ok (user, host, rest, false)
         else
           Ok (None, EmptyString, rest,
               negb (isEmpty scheme) && strings.HasPrefix rest "/")) in
      let* (path, rawPath) := setPath rest in
      Ok (url.mkURL scheme EmptyString user host path rawPath
                    omitHost forceQuery rawQuery EmptyString EmptyString).

(** [url.Parse(rawURL)]. *)
Definition Parse (rawURL : string) : Result string url.URL :=
  let '(u, frag, _) := strings.Cut rawURL "#" in
  let* parsed := parse u in
  if isEmpty frag then Ok parsed
  else
    let* (fragment, rawFragment) := setFragment frag in
    Ok (url.mkURL (url.Scheme parsed) (url.Opaque parsed) (url.User parsed)
                  (url.Host parsed) (url.Path parsed) (url.RawPath parsed)
                  (url.OmitHost parsed) (url.ForceQuery parsed)
                  (url.RawQuery parsed) fragment rawFragment).

(** [u.EscapedPath()] and [u.EscapedFragment()]. *)
Definition escapedOr (raw decoded : string) (mode : encoding) (fallback : string) : string :=
  if negb (isEmpty raw) && validEncoded raw mode then
    match unescape raw mode with
    | Ok p => if String.eqb p decoded then raw else fallback
    | Err _ => fallback
    end
  else fallback.

Definition EscapedPath (u : url.URL) : string :=
  escapedOr (url.RawPath u) (url.Path u) encodePath
    (if String.eqb (url.Path u) "*" then "*" else escape (url.Path u) encodePath).

Definition EscapedFragment (u : url.URL) : string :=
  escapedOr (url.RawFragment u) (url.Fragment u) encodeFragment
    (escape (url.Fragment u) encodeFragment).

(** [String()] of a [Userinfo]. *)
Definition Userinfo_String (ui : url.Userinfo) : string :=
  escape (url.username ui) encodeUserPassword
  +:+ (if url.passwordSet ui
       then ":" +:+ escape (url.password ui) encodeUserPassword
       else EmptyString).

(** [u.String()]. *)
Definition String_ (u : url.URL) : string :=
  let hasUser := match url.User u with Some _ => true | None => false end in
  let buf := if isEmpty (url.Scheme u) then EmptyString else url.Scheme u +:+ ":" in
  let buf :=
    if negb (isEmpty (url.Opaque u)) then buf +:+ url.Opaque u
    else
      let buf :=
        if negb (isEmpty (url.Scheme u)) || negb (isEmpty (url.Host u)) || hasUser then
          if url.OmitHost u && isEmpty (url.Host u) && negb hasUser then buf
          else
            buf
            +:+ (if negb (isEmpty (url.Host u)) || negb (isEmpty (url.Path u)) || hasUser
                 then "//" else EmptyString)
            +:+ match url.User u with
                | Some ui => Userinfo_String ui +:+ "@"
                | None => EmptyString
                end
            +:+ (if isEmpty (url.Host u) then EmptyString
                 else escape (url.Host u) encodeHost)
        else buf in
      let path := EscapedPath u in
      let buf :=
        if negb (isEmpty path) && negb (strings.HasPrefix path "/")
           && negb (isEmpty (url.Host u))
        then buf +:+ "/" else buf in
      let buf :=
        if isEmpty buf && strings.Contains (fst (fst (strings.Cut path "/"))) ":"
        then buf +:+ "./" else buf in
      buf +:+ path in
  let buf :=
    if url.ForceQuery u || negb (isEmpty (url.RawQuery u))
    then buf +:+ "?" +:+ url.RawQuery u else buf in
  if isEmpty (url.Fragment u) then buf
  else buf +:+ "#" +:+ EscapedFragment u.

(** [parseQuery(m, query)], the pairs taken one [&] at a time; a pair that
    does not parse is skipped, as [Query] drops the error. *)
Definition addPair (m : gmap string (list string)) (pair : string)
    : gmap string (list string) :=
  if strings.Contains pair ";" then m
  else if isEmpty pair then m
  else
    let '(key, value, _) := strings.Cut pair "=" in
    match QueryUnescape key, QueryUnescape value with
    | Ok key, Ok value => <[key := default [] (m !! key) ++ [value]]> m
    | _, _ => m
    end.

(** [u.Query()]. *)
Definition Query (u : url.URL) : gmap string (list string) :=
  foldl addPair ∅ (strings.Split (url.RawQuery u) "&").

(** [removeEmptyPort(host)] of [net/http]. *)
Definition removeEmptyPort (host : string) : string :=
  let hasPort :=
    match strings.LastIndex host ":", strings.LastIndex host "]" with
    | Some i, Some j => (j <? i)%nat
    | Some _, None => true
    | None, _ => false
    end in
  if hasPort then strings.TrimSuffix host ":" else host.

(** [http.NewRequest("GET", urlStr, nil)]: the [URL] of the request. *)
Definition NewRequest (urlStr : string) : Result string url.URL :=
  let* u := Parse urlStr in
  Ok (url.setHost u (removeEmptyPort (url.Host u))).

End netref.

#[export] Instance RefLib : NetLib := {
  url_Parse := netref.Parse;
  url_String := netref.String_;
  url_Query := netref.Query;
  url_PathUnescape := netref.PathUnescape;
  http_NewRequest := netref.NewRequest
}.

(** ** Names of the specification *)

(** The two failures of [handleRelativeRedirect]. *)
Definition MissingScheme : error := errors_New "missing scheme for relative redirect".
Definition MissingHost : error := errors_New "missing host for relative redirect".

(** The kinds of error [followRedirects] returns, by the text it puts
    before the message of the cause: the request could not be built, the
    network failed, the relative redirect could not be resolved, a URL
    did not parse, a parameter did not decode. *)
Definition errorKinds : list string :=
  ["error creating request: "; "error accessing URL: ";
   "error handling relative redirect: "; "error parsing URL: ";
   "error decoding returnUri: "; "error decoding redir param: "].

Definition isTraceError (e : error) : Prop :=
  ∃ prefix cause, e = fmt_Errorf prefix cause ∧ prefix ∈ errorKinds.

(** A redirect status. *)
Definition isRedirect (statusCode : Z) : bool :=
  (300 <=? statusCode) && (statusCode <=? 399).

(** The hop ledger of a chain of requests: the URLs requested and the
    status codes received, numbered from [k]. *)
Fixpoint ledger (k : Z) (links : list (string * Z)) : list Hop :=
  match links with
  | [] => []
  | (u, statusCode) :: rest => mkHop k u statusCode :: ledger (k + 1) rest
  end.

(** A redirect chain as the network and the library present it: request
    number [k] is for the first URL of [links] and is answered with its
    status code; every answer but the last is a redirect whose [Location]
    is not empty, does not begin with the special prefix, and leads to
    the next URL of [links]; the last answer is not a redirect. *)
Fixpoint chain `{NetLib} (net : Network) (k : nat) (previousURL : option url.URL)
    (links : list (string * Z)) : Prop :=
  match links with
  | [] => False
  | (u, statusCode) :: rest =>
      ∃ reqURL resp,
        http_NewRequest u = Ok reqURL
        ∧ net k reqURL = http.DoOk resp
        ∧ http.StatusCode resp = statusCode
        ∧ match rest with
          | [] => isRedirect statusCode = false
          | (u', _) :: _ =>
              let location := http.Header_Get (http.Header resp) "Location" in
              isRedirect statusCode = true
              ∧ location ≠ EmptyString
              ∧ strings.HasPrefix location "https://outlook.office365.com" = false
              ∧ ∃ previousURL',
                  redirectTarget previousURL location reqURL = Ok (u', previousURL')
                  ∧ chain net (S k) (Some previousURL') rest
          end
  end.

(** ** Data of the examples *)

Module ex.

Definition header (location server : string) : gmap string (list string) :=
  <["Location" := [location]]> (<["Server" := [server]]> ∅).

(** [http://a.example/x] and [https://b.example/y], parsed. *)
Definition a_x : url.URL :=
  url.mkURL "http" EmptyString None "a.example" "/x" EmptyString
            false false EmptyString EmptyString EmptyString.
Definition b_y : url.URL :=
  url.mkURL "https" EmptyString None "b.example" "/y" EmptyString
            false false EmptyString EmptyString EmptyString.

(** A network that answers every request with [200] and no header. *)
Definition net_ok : Network :=
  fun _ _ => http.DoOk (http.mkResponse 200 ∅).

(** A network that answers every request with [302], without [Location],
    from the server named [server]. *)
Definition net_no_location (server : string) : Network :=
  fun _ _ => http.DoOk (http.mkResponse 302 (<["Server" := [server]]> ∅)).

(** A network that answers every request with [302] and the given
    [Location]. *)
Definition net_redirect (location : string) : Network :=
  fun _ _ => http.DoOk (http.mkResponse 302 (header location "nginx")).

(** Scenario A of the specification: [http://a/1] answers [302] with the
    [Location] [/b], every other URL answers [200]. *)
Definition net_A : Network :=
  fun _ reqURL =>
    if String.eqb (url.Path reqURL) "/1"
    then http.DoOk (http.mkResponse 302 (header "/b" "nginx"))
    else http.DoOk (http.mkResponse 200 ∅).

Definition links_A : list (string * Z) :=
  [("http://a/1", 302); ("http://a/b", 200)].

(** A redirect target that carries both parameters. *)
Definition both : string := "https://x/r?returnUri=%2Fhome&redir=%2Faway".
Definition both_parsed : url.URL :=
  url.mkURL "https" EmptyString None "x" "/r" EmptyString
            false false "returnUri=%2Fhome&redir=%2Faway" EmptyString EmptyString.

(** A network on which every request fails, without a timeout. *)
Definition net_down : Network :=
  fun _ _ => http.DoErr (http.mkClientError false "dial tcp: no route to host").

(** [http://a/1], parsed, and the state in which the second iteration
    starts when [http://a/1] redirects to itself. *)
Definition a_1 : url.URL :=
  url.mkURL "http" EmptyString None "a" "/1" EmptyString
            false false EmptyString EmptyString EmptyString.
Definition self_loop_state : State :=
  mkState "http://a/1" [mkHop 1 "http://a/1" 302] 2 (Some a_1)
          (<["http://a/1" := 2]> (<["http://a/1" := 1]> ∅)) false.

(** A URL of the special provider, and its parsed form. *)
Definition owa : string := "https://outlook.office365.com/owa".
Definition owa_parsed : url.URL :=
  url.mkURL "https" EmptyString None "outlook.office365.com" "/owa" EmptyString
            false false EmptyString EmptyString EmptyString.

(** The location [/path], parsed. *)
Definition path : url.URL :=
  url.mkURL EmptyString EmptyString None EmptyString "/path" EmptyString
            false false EmptyString EmptyString EmptyString.

End ex.

(** ** The rest of the program *)

(** How many of the hops recorded in [hops] are for the URL [u]. *)
Definition requests (u : string) (hops : list Hop) : nat :=
  length (filter (λ h, URL h = u) hops).

(** [getStatusCodeClass] (url-tracer.go, lines 214-227). *)
Definition getStatusCodeClass (statusCode : Z) : string :=
  if (200 <=? statusCode) && (statusCode <? 300) then "2xx"
  else if (300 <=? statusCode) && (statusCode <? 400) then "3xx"
  else if (400 <=? statusCode) && (statusCode <? 500) then "4xx"
  else if (500 <=? statusCode) && (statusCode <? 600) then "5xx"
  else EmptyString.

(** *** [followRedirects] of url-tracer.go (lines 72-212): every hop also
        carries the class of its status code *)

Module tracer.

Record Hop : Type := mkHop {
  Number : Z;
  URL : string;
  StatusCode : Z;
  StatusCodeClass : string
}.

Inductive Outcome : Type :=
| Return (finalURL : string) (hops : option (list Hop))
         (cloudflareStatus : bool) (err : option error)
| Exit (printed : string) (code : Z).

Record State : Type := mkState {
  urlStr : string;
  hops : list Hop;
  number : Z;
  previousURL : option url.URL;
  visitedURLs : gmap string Z;
  cloudflareStatus : bool
}.

Inductive Step : Type :=
| Continue (st : State)
| Done (o : Outcome).

Definition initState (urlStr : string) : State :=
  mkState urlStr [] 1 None (<[urlStr := 1]> ∅) false.

(** One pass through the body of the [for] loop (lines 87-211). *)
Definition iteration `{NetLib} (net : Network) (st : State) : Step :=
  let cf := cloudflareStatus st in
  if 1 <? visits (visitedURLs st) (urlStr st) then
    Done (Return (urlStr st)
                 (Some (hops st
                        ++ [mkHop (number st) (urlStr st) http.StatusLoopDetected
                                  (getStatusCodeClass http.StatusLoopDetected)]))
                 cf None)
  else
    let visited :=
      <[urlStr st := wrapInt (visits (visitedURLs st) (urlStr st) + 1)]> (visitedURLs st) in
    match http_NewRequest (urlStr st) with
    | Err err =>
        Done (Return "" None cf
                (Some (fmt_Errorf "error creating request: " (lib_error err))))
    | Ok reqURL =>
        match net (length (hops st)) reqURL with
        | http.DoErr e =>
            if http.Timeout e then Done (Exit "Timeout error" 1)
            else if strings.Contains (http.Message e)
                      "x509: certificate signed by unknown authority"
            then Done (Exit "Validation error" 1)
            else Done (Return "" None cf
                         (Some (fmt_Errorf "error accessing URL: " (lib_error (http.Message e)))))
        | http.DoOk resp =>
            let hops' :=
              hops st ++ [mkHop (number st) (urlStr st) (http.StatusCode resp)
                                (getStatusCodeClass (http.StatusCode resp))] in
            if (300 <=? http.StatusCode resp) && (http.StatusCode resp <=? 399) then
              let location := http.Header_Get (http.Header resp) "Location" in
              if isEmpty location then
                Done (Return "" (Some [])
                        (if strings.Contains (http.Header_Get (http.Header resp) "Server")
                              "cloudflare"
                         then true else cf)
                        None)
              else if strings.HasPrefix location "https://outlook.office365.com" then
                Done (Return location
                        (Some (hops' ++ [mkHop (wrapInt (number st + 2)) location http.StatusOK
                                               (getStatusCodeClass http.StatusOK)]))
                        cf None)
              else
                match redirectTarget (previousURL st) location reqURL with
                | Err err => Done (Return "" None cf (Some err))
                | Ok (redirectURLString, previousURL') =>
                    Continue (mkState redirectURLString hops' (wrapInt (number st + 1))
                                      (Some previousURL') visited cf)
                end
            else Done (Return (urlStr st) (Some hops') cf None)
        end
    end.

Fixpoint run `{NetLib} (net : Network) (fuel : nat) (st : State) : option Outcome :=
  match fuel with
  | O => None
  | S fuel' =>
      match iteration net st with
      | Done o => Some o
      | Continue st' => run net fuel' st'
      end
  end.

Definition followRedirects `{NetLib} (net : Network) (fuel : nat)
    (urlStr : string) : option Outcome :=
  run net fuel (initState urlStr).

End tracer.

(** A hop, a state and an outcome of url-tracer.go without the class of
    the status code. *)
Definition eraseHop (h : tracer.Hop) : Hop :=
  mkHop (tracer.Number h) (tracer.URL h) (tracer.StatusCode h).

Definition eraseState (st : tracer.State) : State :=
  mkState (tracer.urlStr st) (eraseHop <$> tracer.hops st) (tracer.number st)
          (tracer.previousURL st) (tracer.visitedURLs st) (tracer.cloudflareStatus st).

Definition eraseOutcome (o : tracer.Outcome) : Outcome :=
  match o with
  | tracer.Return finalURL hops cf err =>
      Return finalURL (option_map (fmap eraseHop) hops) cf err
  | tracer.Exit printed code => Exit printed code
  end.

(** The hops of an outcome, none when the process ended or the slice is
    nil. *)
Definition tracerHops (o : tracer.Outcome) : list tracer.Hop :=
  match o with
  | tracer.Return _ (Some hops) _ _ => hops
  | _ => []
  end.

(** *** The later revision of [followRedirects] in go-trace.go (lines
        809-951): a refused connection, a timeout and a certificate error
        print their message and call [os.Exit(0)] *)

Definition nl : string := String (ascii_of_N 10) EmptyString.

Module rev2.

Definition iteration `{NetLib} (net : Network) (st : State) : Step :=
  let cf := cloudflareStatus st in
  if 1 <? visits (visitedURLs st) (urlStr st) then
    Done (Return (urlStr st)
                 (Some (hops st ++ [mkHop (number st) (urlStr st) http.StatusLoopDetected]))
                 cf None)
  else
    let visited :=
      <[urlStr st := wrapInt (visits (visitedURLs st) (urlStr st) + 1)]> (visitedURLs st) in
    match http_NewRequest (urlStr st) with
    | Err err =>
        Done (Return "" None cf
                (Some (fmt_Errorf "error creating request: " (lib_error err))))
    | Ok reqURL =>
        match net (length (hops st)) reqURL with
        | http.DoErr e =>
            if strings.Contains (http.Message e) "connection refused"
            then Done (Exit (nl +:+ "The connection was refused (possibly because of DNS). Sorry!") 0)
            else if http.Timeout e
            then Done (Exit (nl +:+ "The request timed out. Sorry!") 0)
            else if strings.Contains (http.Message e)
                      "x509: certificate signed by unknown authority"
            then Done (Exit (nl +:+ "There was a certification validation error. Sorry!") 0)
            else Done (Return "" None cf
                         (Some (fmt_Errorf "error accessing URL: " (lib_error (http.Message e)))))
        | http.DoOk resp =>
            let hops' := hops st ++ [mkHop (number st) (urlStr st) (http.StatusCode resp)] in
            if (300 <=? http.StatusCode resp) && (http.StatusCode resp <=? 399) then
              let location := http.Header_Get (http.Header resp) "Location" in
              if isEmpty location then
                Done (Return "" (Some [])
                        (if strings.Contains (http.Header_Get (http.Header resp) "Server")
                              "cloudflare"
                         then true else cf)
                        None)
              else if strings.HasPrefix location "https://outlook.office365.com" then
                Done (Return location
                        (Some (hops' ++ [mkHop (wrapInt (number st + 2)) location http.StatusOK]))
                        cf None)
              else
                match redirectTarget (previousURL st) location reqURL with
                | Err err => Done (Return "" None cf (Some err))
                | Ok (redirectURLString, previousURL') =>
                    Continue (mkState redirectURLString hops' (wrapInt (number st + 1))
                                      (Some previousURL') visited cf)
                end
            else Done (Return (urlStr st) (Some hops') cf None)
        end
    end.

Fixpoint run `{NetLib} (net : Network) (fuel : nat) (st : State) : option Outcome :=
  match fuel with
  | O => None
  | S fuel' =>
      match iteration net st with
      | Done o => Some o
      | Continue st' => run net fuel' st'
      end
  end.

Definition followRedirects `{NetLib} (net : Network) (fuel : nat)
    (urlStr : string) : option Outcome :=
  run net fuel (initState urlStr).

End rev2.

(** *** Presentation: [formatURL] and the terse and short printers *)

(** [len(s)], a Go [int]. *)
Definition len (s : string) : Z := Z.of_nat (String.length s).

(** The first [n] bytes of [s], and [s] without them. *)
Fixpoint takeBytes (n : nat) (s : string) : string :=
  match n, s with
  | S n', String c s' => String c (takeBytes n' s')
  | _, _ => EmptyString
  end.

Fixpoint dropBytes (n : nat) (s : string) : string :=
  match n, s with
  | S n', String _ s' => dropBytes n' s'
  | _, _ => s
  end.

(** The slice expression [s[lo:hi]]: it panics unless
    [0 <= lo <= hi <= len(s)]. *)
Definition slice (s : string) (lo hi : Z) : Result string string :=
  if (0 <=? lo) && (lo <=? hi) && (hi <=? len s)
  then Ok (takeBytes (Z.to_nat (hi - lo)) (dropBytes (Z.to_nat lo) s))
  else Err "slice bounds out of range".

(** [strings.Repeat(s, count)] for a count that is not negative. *)
Fixpoint strings_Repeat (s : string) (count : nat) : string :=
  match count with
  | O => EmptyString
  | S count' => s +:+ strings_Repeat s count'
  end.

(** The [for] loop of [formatURL] (go-trace.go, lines 98-112), for at
    most [fuel] passes: [None] when the fuel runs out, an error when a
    slice expression panics.  [continuation] is what is written before
    every line but the first. *)
Fixpoint formatLoop (continuation : string) (maxLineLength : Z) (url : string)
    (fuel : nat) (i lineStart : Z) (formattedURL : string)
    : option (Result string string) :=
  if i <? len url then
    match fuel with
    | O => None
    | S fuel' =>
        let end_ := wrapInt (i + maxLineLength) in
        let end_ := if len url <? end_ then len url else end_ in
        let formattedURL :=
          if 0 <? i then formattedURL +:+ continuation else formattedURL in
        match slice url lineStart end_ with
        | Err p => Some (Err p)
        | Ok line =>
            formatLoop continuation maxLineLength url fuel'
                       (wrapInt (i + maxLineLength)) end_ (formattedURL +:+ line)
        end
    end
  else Some (Ok formattedURL).

(** [formatURL] (go-trace.go, lines 87-115), given the value of the
    global [outputWidth]. In url-tracer.go (lines 322-349) the width is
    the constant 80. *)
Definition formatURL (outputWidth : Z) (fuel : nat) (url : string)
    : option (Result string string) :=
  let maxLineLength := outputWidth in
  if len url <=? maxLineLength then Some (Ok url)
  else formatLoop (nl +:+ strings_Repeat " " 15) maxLineLength url fuel 0 0 EmptyString.

(** The lines of a wrapped URL put together again: [continuation] between
    two lines. *)
Fixpoint joinLines (continuation : string) (lines : list string) : string :=
  match lines with
  | [] => EmptyString
  | [line] => line
  | line :: rest => line +:+ continuation +:+ joinLines continuation rest
  end.

Fixpoint concatLines (lines : list string) : string :=
  match lines with
  | [] => EmptyString
  | line :: rest => line +:+ concatLines rest
  end.

(** [printTerseTraceResult] (go-trace.go, lines 213-221): what it writes
    to the standard output. *)
Definition printTerseTraceResult (redirectURL : string) : string :=
  let cleanedURL := makeCleanURL redirectURL in
  if negb (String.eqb cleanedURL redirectURL)
  then cleanedURL +:+ nl
  else redirectURL +:+ nl.

(** The colours of go-trace.go (lines 26-29): the escape byte and the
    code. *)
Definition esc : string := String (ascii_of_N 27) EmptyString.
Definition green : string := esc +:+ "[32m".
Definition boldBlue : string := esc +:+ "[1;34m".
Definition reset : string := esc +:+ "[0m".

(** [printShortTraceResult] (go-trace.go, lines 200-211): what it writes
    to the standard output, when [formatURL] returns. *)
Definition printShortTraceResult (outputWidth : Z) (fuel : nat)
    (redirectURL : string) : option (Result string string) :=
  match formatURL outputWidth fuel redirectURL with
  | None => None
  | Some (Err p) => Some (Err p)
  | Some (Ok formatted) =>
      let out :=
        nl +:+ boldBlue +:+ "Final URL" +:+ reset +:+ ":     " +:+ formatted +:+ nl in
      let cleanedURL := makeCleanURL redirectURL in
      let out :=
        if negb (String.eqb cleanedURL redirectURL)
        then out +:+ nl +:+ green +:+ "Clean URL" +:+ reset +:+ ":     "
                 +:+ cleanedURL +:+ nl
        else out in
      Some (Ok (out +:+ nl))
  end.

(** *** Data of the further examples *)

Module ex2.

(** The result of scenario A. *)
Definition hops_A : list Hop :=
  [mkHop 1 "http://a/1" 302; mkHop 2 "http://a/b" 200].

(** The error returned when the [Location] is [%zz]. *)
Definition bad_location : error :=
  fmt_Errorf "error handling relative redirect: " (lib_error "invalid URL escape").

Definition refused : http.ClientError :=
  http.mkClientError false "dial tcp: no route to host".

End ex2.

(** * Properties *)

(** ** Strings *)

Lemma append_cons (c : ascii) (a b : string) :
  String c a +:+ b = String c (a +:+ b).
Proof. reflexivity. Qed.

Lemma append_empty_l (s : string) : EmptyString +:+ s = s.
Proof. reflexivity. Qed.

Lemma append_empty_r (s : string) : s +:+ EmptyString = s.
Proof.
  induction s as [|c s IH]; [done |]. by rewrite append_cons, IH.
Qed.

Lemma append_assoc (a b c : string) : (a +:+ b) +:+ c = a +:+ (b +:+ c).
Proof.
  induction a as [|x a IH]; [done |]. by rewrite !append_cons, IH.
Qed.

Lemma splitLoop_nonempty (sep : string) (s : string) :
  ∀ skip cur, strings.splitLoop sep skip cur s ≠ [].
Proof.
  induction s as [|c s IH]; intros skip cur; cbn [strings.splitLoop]; [done |].
  destruct skip; [destruct (String.prefix sep (String c s)); [done |] |]; apply IH.
Qed.

Lemma prefix_empty (s : string) : String.prefix EmptyString s = true.
Proof. by destruct s. Qed.

Lemma prefix_byte_cons (q c : ascii) (s : string) :
  String.prefix (String q EmptyString) (String c s) = Ascii.eqb q c.
Proof.
  cbn [String.prefix]. destruct (ascii_dec q c) as [->|Hne].
  - by rewrite prefix_empty, Ascii.eqb_refl.
  - apply Ascii.eqb_neq in Hne. by rewrite Hne.
Qed.

(** [Index] with a one-byte needle, one byte at a time. *)
Lemma Index_byte_cons (q c : ascii) (s : string) :
  strings.Index (String c s) (String q EmptyString) =
  if Ascii.eqb q c then Some 0%nat else S <$> strings.Index s (String q EmptyString).
Proof.
  cbn [strings.Index]. by rewrite prefix_byte_cons.
Qed.

(** The first piece of a split at a one-byte separator is the text before
    its first occurrence; there is a second piece exactly when it occurs. *)
Lemma splitLoop_byte (q : ascii) (s : string) :
  ∀ cur,
    match strings.Index s (String q EmptyString) with
    | None => strings.splitLoop (String q EmptyString) 0 cur s = [cur +:+ s]
    | Some i =>
        ∃ p rest,
          strings.splitLoop (String q EmptyString) 0 cur s
          = (cur +:+ String.substring 0 i s) :: p :: rest
    end.
Proof.
  induction s as [|c s IH]; intros cur.
  - simpl. by rewrite append_empty_r.
  - rewrite Index_byte_cons. cbn [strings.splitLoop].
    rewrite prefix_byte_cons. destruct (Ascii.eqb q c) eqn:Hq.
    + simpl String.length. simpl Nat.sub.
      destruct (strings.splitLoop (String q EmptyString) 0 EmptyString s)
        as [|p rest] eqn:Hs.
      * by apply splitLoop_nonempty in Hs.
      * exists p, rest. simpl. by rewrite append_empty_r.
    + specialize (IH (cur +:+ String c EmptyString)).
      destruct (strings.Index s (String q EmptyString)) as [i|]; simpl.
      * destruct IH as (p & rest & ->). exists p, rest.
        by rewrite append_assoc, append_cons, append_empty_l.
      * rewrite IH. by rewrite append_assoc, append_cons, append_empty_l.
Qed.

Lemma Index_byte_before (q : ascii) (s : string) :
  ∀ i, strings.Index s (String q EmptyString) = Some i →
       strings.Index (String.substring 0 i s) (String q EmptyString) = None.
Proof.
  induction s as [|c s IH]; intros i.
  - simpl. done.
  - rewrite Index_byte_cons. destruct (Ascii.eqb q c) eqn:Hq.
    + intros [= <-]. done.
    + destruct (strings.Index s (String q EmptyString)) as [j|] eqn:Hj; [|done].
      simpl. intros [= <-]. rewrite <- (IH j eq_refl).
      change (String.substring 0 (S j) (String c s))
        with (String c (String.substring 0 j s)).
      rewrite Index_byte_cons, Hq. by rewrite (IH j eq_refl).
Qed.

(** [makeCleanURL] in closed form. *)
Lemma makeCleanURL_Index (u : string) :
  makeCleanURL u =
  match strings.Index u "?" with
  | Some i => String.substring 0 i u
  | None => u
  end.
Proof.
  unfold makeCleanURL, strings.Split.
  pose proof (splitLoop_byte "?" u EmptyString) as H.
  destruct (strings.Index u "?") as [i|].
  - destruct H as (p & rest & ->). done.
  - rewrite H. done.
Qed.

(** ** Clean-URL derivation *)

(** C8. The clean-URL derivation is idempotent: for every URL string [u],
    [makeCleanURL (makeCleanURL u) = makeCleanURL u]; and [makeCleanURL]
    gives the part of [u] before the first ['?'], or [u] itself when it
    holds no ['?']. *)
Theorem makeCleanURL_idempotent (u : string) :
  makeCleanURL (makeCleanURL u) = makeCleanURL u
  ∧ makeCleanURL u =
      match strings.Index u "?" with
      | Some i => String.substring 0 i u
      | None => u
      end.
Proof.
  split; [|apply makeCleanURL_Index].
  rewrite (makeCleanURL_Index u).
  destruct (strings.Index u "?") as [i|] eqn:Hi.
  - rewrite makeCleanURL_Index. by rewrite (Index_byte_before _ _ _ Hi).
  - rewrite makeCleanURL_Index. by rewrite Hi.
Qed.

(** ** Relative-redirect resolution *)

Lemma isEmpty_true (s : string) : isEmpty s = true ↔ s = EmptyString.
Proof. by destruct s. Qed.

Lemma isEmpty_false (s : string) : isEmpty s = false ↔ s ≠ EmptyString.
Proof. by destruct s. Qed.

Section RelativeRedirect.

Context `{NetLib}.
Implicit Types (previousURL requestURL : option url.URL) (location : string).

(** [handleRelativeRedirect] once the location has parsed. *)
Lemma handleRelativeRedirect_parsed previousURL location requestURL (r : url.URL) :
  url_Parse location = Ok r →
  handleRelativeRedirect previousURL location requestURL =
  match previousURL, requestURL with
  | Some b, _ | None, Some b =>
      Ok (url.setHost
            (url.setScheme r (if isEmpty (url.Scheme r) then url.Scheme b else url.Scheme r))
            (if isEmpty (url.Host r) then url.Host b else url.Host r))
  | None, None =>
      if isEmpty (url.Scheme r) then Err MissingScheme
      else if isEmpty (url.Host r) then Err MissingHost
      else Ok r
  end.
Proof.
  intros Hp. unfold handleRelativeRedirect. rewrite Hp. cbn [lib bind].
  destruct r as [sc op us ho pa rp oh fq rq fr rf].
  destruct previousURL as [p|], requestURL as [q|];
    destruct sc, ho; reflexivity.
Qed.

(** C7. Once the location has parsed as a URL reference: a missing scheme
    is taken from [previousURL] when that is available (not nil),
    otherwise from [requestURL], and the call fails with [MissingScheme]
    exactly when neither is available; the same holds for a missing host,
    with [MissingHost] (the scheme is looked at first, so a location that
    lacks both fails with [MissingScheme] when neither is available); no
    other failure occurs; and the path, the query and the fragment of the
    location are returned as they were parsed, as are a scheme and a host
    that the location has. *)
Theorem handleRelativeRedirect_inherits previousURL location requestURL (r : url.URL) :
  url_Parse location = Ok r →
  let res := handleRelativeRedirect previousURL location requestURL in
  (url.Scheme r = EmptyString →
     (∀ p, previousURL = Some p → ∃ u, res = Ok u ∧ url.Scheme u = url.Scheme p)
     ∧ (∀ q, previousURL = None → requestURL = Some q →
          ∃ u, res = Ok u ∧ url.Scheme u = url.Scheme q)
     ∧ (res = Err MissingScheme ↔ previousURL = None ∧ requestURL = None))
  ∧ (url.Host r = EmptyString →
     (∀ p, previousURL = Some p → ∃ u, res = Ok u ∧ url.Host u = url.Host p)
     ∧ (∀ q, previousURL = None → requestURL = Some q →
          ∃ u, res = Ok u ∧ url.Host u = url.Host q)
     ∧ (previousURL = None ∧ requestURL = None →
          res = Err (if isEmpty (url.Scheme r) then MissingScheme else MissingHost))
     ∧ (res = Err MissingHost ↔
          url.Scheme r ≠ EmptyString ∧ previousURL = None ∧ requestURL = None))
  ∧ (∀ e, res = Err e →
       (e = MissingScheme ∨ e = MissingHost)
       ∧ previousURL = None ∧ requestURL = None)
  ∧ (∀ u, res = Ok u →
       url.Path u = url.Path r
       ∧ url.RawQuery u = url.RawQuery r
       ∧ url.Fragment u = url.Fragment r
       ∧ (url.Scheme r ≠ EmptyString → url.Scheme u = url.Scheme r)
       ∧ (url.Host r ≠ EmptyString → url.Host u = url.Host r)).
Proof.
  intros Hp res. subst res. rewrite (handleRelativeRedirect_parsed _ _ _ r Hp).
  unfold MissingScheme, MissingHost.
  destruct r as [sc op us ho pa rp oh fq rq fr rf]. cbn [url.Scheme url.Host url.Path url.RawQuery url.Fragment].
  destruct previousURL as [p|], requestURL as [q|]; destruct sc, ho; cbn;
    repeat split; intros;
    repeat match goal with
           | E : _ ∧ _ |- _ => destruct E
           | E : _ ∨ _ |- _ => destruct E
           | E : Some _ = Some _ |- _ => injection E as <-
           | E : Ok _ = Ok _ |- _ => injection E as <-
           | E : Err _ = Err _ |- _ => injection E as <-
           end;
    try discriminate; try congruence; eauto.
Qed.

(** C9. [handleRelativeRedirect] fails with [MissingScheme] or with
    [MissingHost] only when [previousURL] and [requestURL] are both nil.
    Whenever [previousURL] is not nil and the location parses, the call
    succeeds whatever [requestURL] is, and a scheme or host that the
    location lacks is copied from [previousURL] even when that value is
    the empty string: the returned URL may lack a scheme or a host. *)
Theorem handleRelativeRedirect_fails_only_on_nil previousURL location requestURL :
  (handleRelativeRedirect previousURL location requestURL = Err MissingScheme
   ∨ handleRelativeRedirect previousURL location requestURL = Err MissingHost →
   previousURL = None ∧ requestURL = None)
  ∧ (∀ p r, url_Parse location = Ok r →
       (∀ q, handleRelativeRedirect (Some p) location q
             = handleRelativeRedirect (Some p) location None)
       ∧ ∃ u, handleRelativeRedirect (Some p) location requestURL = Ok u
              ∧ (url.Scheme r = EmptyString → url.Scheme u = url.Scheme p)
              ∧ (url.Host r = EmptyString → url.Host u = url.Host p)
              ∧ (url.Scheme r = EmptyString → url.Scheme p = EmptyString →
                 url.Scheme u = EmptyString)
              ∧ (url.Host r = EmptyString → url.Host p = EmptyString →
                 url.Host u = EmptyString)).
Proof.
  split.
  - unfold handleRelativeRedirect at 1 2.
    destruct (url_Parse location) as [r|msg] eqn:Hp; cbn [lib bind].
    + destruct previousURL as [p|], requestURL as [q|]; [| | |done];
        destruct (isEmpty (url.Scheme r)); cbn [bind];
        match goal with
        | |- context [isEmpty ?h] => destruct (isEmpty h)
        end; intros [E|E]; discriminate E.
    + intros [E|E]; discriminate E.
  - intros p r Hp. split.
    + intros q. by rewrite !(handleRelativeRedirect_parsed _ _ _ r Hp).
    + rewrite (handleRelativeRedirect_parsed _ _ _ r Hp).
      eexists. split; [reflexivity |].
      destruct r as [sc op us ho pa rp oh fq rq fr rf]; cbn.
      repeat split; intros; subst; cbn; congruence.
Qed.

End RelativeRedirect.

(** The relative resolutions of the specification, on the reference
    library. *)
Example resolve_with_previous :
  url_String <$> (match handleRelativeRedirect (Some ex.a_x) "/path" (Some ex.b_y) with
                  | Ok u => Some u
                  | Err _ => None
                  end)
  = Some "http://a.example/path".
Proof. vm_compute. reflexivity. Qed.

Example resolve_with_request :
  url_String <$> (match handleRelativeRedirect None "/path" (Some ex.b_y) with
                  | Ok u => Some u
                  | Err _ => None
                  end)
  = Some "https://b.example/path".
Proof. vm_compute. reflexivity. Qed.

Example resolve_with_neither :
  handleRelativeRedirect None "/path" None = Err MissingScheme
  ∧ handleRelativeRedirect None "http:///path" None = Err MissingHost.
Proof. split; vm_compute; reflexivity. Qed.

Lemma handleRelativeRedirect_inherits_witness :
  ∃ u, handleRelativeRedirect (Some ex.a_x) "/path" (Some ex.b_y) = Ok u
       ∧ url.Scheme u = "http".
Proof.
  refine (proj1 (proj1 (handleRelativeRedirect_inherits
                          (Some ex.a_x) "/path" (Some ex.b_y) ex.path _) _) ex.a_x _);
    reflexivity.
Defined.

Lemma handleRelativeRedirect_fails_only_on_nil_witness :
  ∃ u, handleRelativeRedirect (Some netref.emptyURL) "/path" (Some ex.b_y) = Ok u
       ∧ url.Scheme u = EmptyString ∧ url.Host u = EmptyString.
Proof.
  destruct (proj2 (proj2 (handleRelativeRedirect_fails_only_on_nil (H := RefLib)
                            (Some netref.emptyURL) "/path" (Some ex.b_y))
                     netref.emptyURL ex.path eq_refl))
    as (u & Hu & _ & _ & Hs & Hh).
  exists u. split; [exact Hu |].
  split; [apply Hs | apply Hh]; reflexivity.
Defined.

(** ** The redirect-resolution loop *)

Lemma wrapInt_small (z : Z) : - maxInt - 1 ≤ z ≤ maxInt → wrapInt z = z.
Proof.
  unfold wrapInt, maxInt, intSize. intros Hz.
  rewrite Z.mod_small; lia.
Qed.

Lemma isRedirect_true (c : Z) : isRedirect c = true ↔ 300 ≤ c ≤ 399.
Proof. unfold isRedirect. rewrite andb_true_iff, !Z.leb_le. lia. Qed.

Lemma HasPrefix_nonempty (s : string) (c : ascii) (p : string) :
  strings.HasPrefix s (String c p) = true → isEmpty s = false.
Proof. by destruct s. Qed.

Ltac inject_results :=
  repeat match goal with
         | E : Err _ = Err _ |- _ => injection E as <-
         | E : Ok _ = Ok _ |- _ => injection E as <-
         | E : Done _ = Done _ |- _ => injection E as E
         | E : Return _ _ _ _ = Return _ _ _ _ |- _ => injection E as <- <- <- <-
         end.

Ltac trace_error :=
  unfold isTraceError, errorKinds; eexists _, _;
  split; [reflexivity | repeat first [apply list_elem_of_here | apply list_elem_of_further]].

Section Loop.

Context `{NetLib}.
Implicit Types (net : Network) (st : State) (o : Outcome).

Lemma run_stateAt net n :
  ∀ st st' k, stateAt net n st = Some st' → run net (n + k) st = run net k st'.
Proof.
  induction n as [|n IH]; intros st st' k; cbn [stateAt].
  - by intros [= ->].
  - cbn [Nat.add run]. destruct (iteration net st) as [st1|o]; [apply IH | done].
Qed.

(** An iteration that leaves the loop decides the result of the call. *)
Lemma followRedirects_at net urlStr n st o fuel :
  stateAt net n (initState urlStr) = Some st →
  iteration net st = Done o →
  (n < fuel)%nat →
  followRedirects net fuel urlStr = Some o.
Proof.
  intros Hst Hit Hlt. unfold followRedirects.
  replace fuel with (n + S (fuel - S n))%nat by lia.
  rewrite (run_stateAt _ _ _ _ _ Hst). cbn [run]. by rewrite Hit.
Qed.

(** What an iteration that goes on has seen and done. *)
Lemma iteration_Continue net st st' :
  iteration net st = Continue st' →
  ∃ reqURL resp redirectURLString previousURL',
    visits (visitedURLs st) (urlStr st) ≤ 1
    ∧ http_NewRequest (urlStr st) = Ok reqURL
    ∧ net (length (hops st)) reqURL = http.DoOk resp
    ∧ isRedirect (http.StatusCode resp) = true
    ∧ redirectTarget (previousURL st)
        (http.Header_Get (http.Header resp) "Location") reqURL
      = Ok (redirectURLString, previousURL')
    ∧ st' = mkState redirectURLString
              (hops st ++ [mkHop (number st) (urlStr st) (http.StatusCode resp)])
              (wrapInt (number st + 1)) (Some previousURL')
              (<[urlStr st := wrapInt (visits (visitedURLs st) (urlStr st) + 1)]>
                 (visitedURLs st))
              (cloudflareStatus st).
Proof.
  unfold iteration.
  destruct (1 <? visits (visitedURLs st) (urlStr st)) eqn:Hv; [done |].
  apply Z.ltb_ge in Hv.
  destruct (http_NewRequest (urlStr st)) as [reqURL|msg] eqn:Hq; [|done].
  destruct (net (length (hops st)) reqURL) as [resp|e] eqn:Hn.
  - fold (isRedirect (http.StatusCode resp)).
    destruct (isRedirect (http.StatusCode resp)) eqn:Hr; [|done].
    destruct (isEmpty _); [done |].
    destruct (strings.HasPrefix _ _); [done |].
    destruct (redirectTarget _ _ _) as [[s p]|err] eqn:Ht; [|done].
    intros [= <-]. by exists reqURL, resp, s, p.
  - destruct (http.Timeout e); [done |]. by destruct (strings.Contains _ _).
Qed.

(** Along the loop the flag stays as it was, one hop is recorded per
    iteration, and the hop counter follows the number of hops. *)
Lemma stateAt_invariant net n :
  ∀ st st',
    stateAt net n st = Some st' →
    cloudflareStatus st' = cloudflareStatus st
    ∧ length (hops st') = (n + length (hops st))%nat
    ∧ (number st = Z.of_nat (length (hops st)) + 1 →
       Z.of_nat (length (hops st')) + 1 ≤ maxInt →
       number st' = Z.of_nat (length (hops st')) + 1).
Proof.
  induction n as [|n IH]; intros st st'; cbn [stateAt].
  - intros [= ->]. done.
  - destruct (iteration net st) as [st1|o] eqn:Hit; [|done].
    intros Hst. destruct (IH _ _ Hst) as (Hcf & Hlen & Hnum).
    apply iteration_Continue in Hit as (q & resp & s & p & _ & _ & _ & _ & _ & ->).
    cbn in Hcf, Hlen, Hnum. rewrite length_app in Hlen, Hnum. cbn in Hlen, Hnum.
    split; [done |]. split; [lia |].
    intros Hn Hmax. apply Hnum; [|done].
    rewrite Hn. rewrite wrapInt_small; unfold maxInt, intSize in *; lia.
Qed.

Lemma stateAt_init net urlStr n st :
  stateAt net n (initState urlStr) = Some st →
  cloudflareStatus st = false
  ∧ length (hops st) = n
  ∧ (Z.of_nat n + 1 ≤ maxInt → number st = Z.of_nat n + 1).
Proof.
  intros Hst. destruct (stateAt_invariant _ _ _ _ Hst) as (Hcf & Hlen & Hnum).
  cbn in Hcf, Hlen, Hnum. rewrite Nat.add_0_r in Hlen.
  split; [done |]. split; [done |]. intros Hmax. rewrite <- Hlen. apply Hnum; [done | lia].
Qed.

(** C2 (amended). For every resolution and every iteration of the loop: if
    the visit count of the current URL is already at least 2 when the
    iteration starts, the iteration appends one hop that carries the
    loop-detected status code 508 and the loop ends there, without an
    error: the call returns the current URL and the hops accumulated so
    far followed by that hop. The URL is not fetched again: the outcome
    of the iteration is the same on every network. *)
Theorem loop_detected_from_two_visits net seed n st :
  stateAt net n (initState seed) = Some st →
  2 ≤ visits (visitedURLs st) (urlStr st) →
  let o := Return (urlStr st)
             (Some (hops st ++ [mkHop (number st) (urlStr st) http.StatusLoopDetected]))
             false None in
  (∀ net', iteration net' st = Done o)
  ∧ (∀ fuel, (n < fuel)%nat → followRedirects net fuel seed = Some o).
Proof.
  intros Hst Hv o.
  assert (Hit : ∀ net', iteration net' st = Done o).
  { intros net'. unfold iteration.
    destruct (stateAt_init _ _ _ _ Hst) as (-> & _).
    assert ((1 <? visits (visitedURLs st) (urlStr st)) = true) as ->
      by (apply Z.ltb_lt; lia).
    done. }
  split; [exact Hit |].
  intros fuel Hlt. eapply followRedirects_at; eauto.
Qed.

(** C3 (amended). For every resolution that reaches a redirect status
    (300-399) whose response has no [Location] header: the call returns
    no error, an empty (not nil) hop ledger and the empty string as the
    final URL; the Cloudflare flag it returns says whether the [Server]
    header contains [cloudflare] (the blocked outcome). *)
Theorem redirect_without_location net seed n st reqURL resp :
  stateAt net n (initState seed) = Some st →
  visits (visitedURLs st) (urlStr st) ≤ 1 →
  http_NewRequest (urlStr st) = Ok reqURL →
  net n reqURL = http.DoOk resp →
  300 ≤ http.StatusCode resp ≤ 399 →
  http.Header_Get (http.Header resp) "Location" = EmptyString →
  ∀ fuel, (n < fuel)%nat →
    followRedirects net fuel seed =
    Some (Return EmptyString (Some [])
            (strings.Contains (http.Header_Get (http.Header resp) "Server") "cloudflare")
            None).
Proof.
  intros Hst Hv Hq Hn Hr Hloc fuel Hlt.
  destruct (stateAt_init _ _ _ _ Hst) as (Hcf & Hlen & _).
  eapply followRedirects_at; [exact Hst | | exact Hlt].
  unfold iteration.
  apply Z.ltb_ge in Hv. rewrite Hv, Hq, Hlen, Hn.
  fold (isRedirect (http.StatusCode resp)).
  apply isRedirect_true in Hr. rewrite Hr, Hloc, Hcf. cbn [isEmpty].
  by destruct (strings.Contains _ _).
Qed.

(** C5. For every resolution whose current redirect (status 300-399) has a
    [Location] that begins with [https://outlook.office365.com]: after
    the hop of the current request, one more hop is appended whose number
    is the current hop number plus 2, whose status code is 200 and whose
    URL is the [Location] as it came; the call returns without an error,
    with that [Location] as the final URL.  (The hop counter is a Go
    [int]: the iteration index is taken below its largest value.) *)
Theorem special_provider_shortcut net seed n st reqURL resp :
  stateAt net n (initState seed) = Some st →
  visits (visitedURLs st) (urlStr st) ≤ 1 →
  http_NewRequest (urlStr st) = Ok reqURL →
  net n reqURL = http.DoOk resp →
  300 ≤ http.StatusCode resp ≤ 399 →
  let location := http.Header_Get (http.Header resp) "Location" in
  strings.HasPrefix location "https://outlook.office365.com" = true →
  Z.of_nat n + 3 ≤ maxInt →
  ∀ fuel, (n < fuel)%nat →
    followRedirects net fuel seed =
    Some (Return location
            (Some (hops st
                   ++ [mkHop (number st) (urlStr st) (http.StatusCode resp);
                       mkHop (number st + 2) location http.StatusOK]))
            false None).
Proof.
  intros Hst Hv Hq Hn Hr location Hp Hmax fuel Hlt.
  destruct (stateAt_init _ _ _ _ Hst) as (Hcf & Hlen & Hnum).
  eapply followRedirects_at; [exact Hst | | exact Hlt].
  unfold iteration.
  apply Z.ltb_ge in Hv. rewrite Hv, Hq, Hlen, Hn.
  fold (isRedirect (http.StatusCode resp)).
  apply isRedirect_true in Hr. rewrite Hr. fold location.
  rewrite (HasPrefix_nonempty _ _ _ Hp), Hp, Hcf.
  rewrite (wrapInt_small (number st + 2))
    by (rewrite Hnum by lia; unfold maxInt, intSize in *; lia).
  by rewrite <- app_assoc.
Qed.

(** C6 (amended). For every seed URL [X] whose fetch returns a redirect
    status with a [Location] that does not begin with the special-provider
    prefix and that resolves back to [X] itself: the resolution ends with
    loop detection; it returns no error, [X] as the final URL, and
    exactly two hops, hop 1 with URL [X] and the redirect status and
    hop 2 with URL [X] and the status code 508. *)
Theorem self_loop_detected net X reqURL resp previousURL' :
  http_NewRequest X = Ok reqURL →
  net 0%nat reqURL = http.DoOk resp →
  300 ≤ http.StatusCode resp ≤ 399 →
  let location := http.Header_Get (http.Header resp) "Location" in
  location ≠ EmptyString →
  strings.HasPrefix location "https://outlook.office365.com" = false →
  redirectTarget None location reqURL = Ok (X, previousURL') →
  ∀ fuel, (2 ≤ fuel)%nat →
    followRedirects net fuel X =
    Some (Return X
            (Some [mkHop 1 X (http.StatusCode resp);
                   mkHop 2 X http.StatusLoopDetected])
            false None).
Proof.
  intros Hq Hn Hr location Hloc Hp Ht fuel Hfuel.
  assert (Hit : iteration net (initState X) =
                Continue (mkState X [mkHop 1 X (http.StatusCode resp)] 2
                            (Some previousURL') (<[X := 2]> (<[X := 1]> ∅)) false)).
  { unfold iteration, initState, visits. cbn [urlStr visitedURLs hops number
      previousURL cloudflareStatus length].
    rewrite lookup_insert_eq. cbn [default].
    rewrite Hq, Hn. fold (isRedirect (http.StatusCode resp)).
    apply isRedirect_true in Hr. rewrite Hr. fold location.
    apply isEmpty_false in Hloc. rewrite Hloc, Hp, Ht. done. }
  eapply (followRedirects_at net X 1); [cbn [stateAt]; by rewrite Hit | | lia].
  unfold iteration, visits. cbn [urlStr visitedURLs hops number cloudflareStatus].
  rewrite lookup_insert_eq. done.
Qed.

Lemma unwrapParams_error (s : string) (e : error) :
  unwrapParams s = Err e → isTraceError e.
Proof.
  unfold unwrapParams, bind. intros Hu.
  repeat case_match; try discriminate; inject_results; trace_error.
Qed.

Lemma redirectTarget_error previousURL location reqURL (e : error) :
  redirectTarget previousURL location reqURL = Err e → isTraceError e.
Proof.
  unfold redirectTarget, bind. intros Ht.
  repeat case_match; try discriminate; inject_results; try trace_error.
  by eapply unwrapParams_error.
Qed.

(** An iteration that ends with an error returns nothing else. *)
Lemma iteration_error net st finalURL hops' cf e :
  iteration net st = Done (Return finalURL hops' cf (Some e)) →
  finalURL = EmptyString ∧ hops' = None ∧ isTraceError e.
Proof.
  unfold iteration. intros Hit.
  repeat case_match; try discriminate; inject_results; subst;
    repeat split; try trace_error.
  by eapply redirectTarget_error.
Qed.

Lemma run_error net fuel :
  ∀ st finalURL hops' cf e,
    run net fuel st = Some (Return finalURL hops' cf (Some e)) →
    ∃ st', iteration net st' = Done (Return finalURL hops' cf (Some e)).
Proof.
  induction fuel as [|fuel IH]; intros st finalURL hops' cf e; cbn [run]; [done |].
  destruct (iteration net st) as [st1|o] eqn:Hit.
  - apply IH.
  - intros [= ->]. by exists st.
Qed.

(** C10. For every resolution that ends with an error (the request could
    not be built, the network failed, the relative redirect could not be
    resolved, or a URL or a parameter did not parse), the call returns a
    nil hop list and the empty string as the final URL: the hops
    accumulated before the error are not returned.  Every error is one of
    those kinds. *)
Theorem error_carries_no_partial_result net fuel seed finalURL hops' cf e :
  followRedirects net fuel seed = Some (Return finalURL hops' cf (Some e)) →
  finalURL = EmptyString ∧ hops' = None ∧ isTraceError e.
Proof.
  unfold followRedirects. intros Hrun.
  apply run_error in Hrun as [st Hit]. by eapply iteration_error.
Qed.

Lemma run_more net fuel :
  ∀ st o fuel', run net fuel st = Some o → (fuel ≤ fuel')%nat →
                run net fuel' st = Some o.
Proof.
  induction fuel as [|fuel IH]; intros st o fuel'; cbn [run]; [done |].
  intros Hrun Hle. destruct fuel' as [|fuel']; [lia |]. cbn [run].
  destruct (iteration net st) as [st1|o1]; [|done].
  apply IH; [done | lia].
Qed.

Lemma ledger_length (links : list (string * Z)) :
  ∀ k, length (ledger k links) = length links.
Proof.
  induction links as [|[u c] rest IH]; intros k; cbn; [done | by rewrite IH].
Qed.

Lemma ledger_Number (links : list (string * Z)) :
  ∀ k : nat, Number <$> ledger (Z.of_nat k) links
             = Z.of_nat <$> seq k (length links).
Proof.
  induction links as [|[u c] rest IH]; intros k; cbn; [done |].
  f_equal. rewrite <- IH. do 2 f_equal. lia.
Qed.

Lemma ledger_URL (links : list (string * Z)) :
  ∀ k, URL <$> ledger k links = links.*1.
Proof.
  induction links as [|[u c] rest IH]; intros k; cbn; [done | by rewrite IH].
Qed.

Lemma ledger_StatusCode (links : list (string * Z)) :
  ∀ k, StatusCode <$> ledger k links = links.*2.
Proof.
  induction links as [|[u c] rest IH]; intros k; cbn; [done | by rewrite IH].
Qed.

(** The loop on a chain, from any state that the chain starts in. *)
Lemma run_chain net (links : list (string * Z)) :
  ∀ st final,
    chain net (length (hops st)) (previousURL st) links →
    head links.*1 = Some (urlStr st) →
    last links.*1 = Some final →
    NoDup links.*1 →
    (∀ u, u ∈ links.*1 → visits (visitedURLs st) u ≤ 1) →
    number st = Z.of_nat (length (hops st)) + 1 →
    Z.of_nat (length (hops st) + length links) ≤ maxInt →
    run net (length links) st =
    Some (Return final (Some (hops st ++ ledger (number st) links))
            (cloudflareStatus st) None).
Proof.
  induction links as [|[u c] rest IH]; intros st final Hch Hhd Hlast Hnd Hvis Hnum Hmax;
    [done |].
  cbn [chain] in Hch. destruct Hch as (q & resp & Hq & Hn & Hc & Hrest).
  cbn in Hhd. injection Hhd as ->.
  assert (Hv : (1 <? visits (visitedURLs st) (urlStr st)) = false).
  { apply Z.ltb_ge, Hvis. apply list_elem_of_here. }
  cbn [length run]. unfold iteration. rewrite Hv, Hq, Hn, Hc.
  fold (isRedirect c).
  destruct rest as [|[u' c'] rest'].
  - rewrite Hrest. cbn in Hlast. injection Hlast as <-. done.
  - destruct Hrest as (Hr & Hloc & Hp & p' & Ht & Hch').
    apply isEmpty_false in Hloc. rewrite Hr, Hloc, Hp, Ht.
    assert (Hn1 : wrapInt (number st + 1) = number st + 1).
    { apply wrapInt_small. cbn [length] in Hmax.
      unfold maxInt, intSize in *. lia. }
    rewrite Hn1.
    rewrite (IH _ final); cbn [hops previousURL urlStr visitedURLs number cloudflareStatus].
    + cbn [ledger]. by rewrite <- app_assoc.
    + rewrite length_app. cbn [length]. by rewrite Nat.add_1_r.
    + done.
    + exact Hlast.
    + by apply NoDup_cons in Hnd as [_ ?].
    + intros u2 Hu2. unfold visits.
      apply NoDup_cons in Hnd as [Hne _].
      rewrite lookup_insert_ne by (intros Heq; apply Hne; by rewrite Heq).
      apply Hvis. by apply list_elem_of_further.
    + rewrite length_app. cbn [length]. lia.
    + rewrite length_app. cbn [length] in *. lia.
Qed.

(** C4. For every redirect chain of [N] requests in which no URL repeats
    and no [Location] begins with the special-provider prefix, ending in
    a status that is not a redirect: the call returns, without an error,
    exactly [N] hops whose numbers are 1..[N] in order, whose URLs are
    the URLs requested, in order, and the final URL it returns is the URL
    of the [N]-th hop.  ([N] is below the largest Go [int].) *)
Theorem plain_chain_ledger net (links : list (string * Z)) seed final :
  chain net 0 None links →
  head links.*1 = Some seed →
  last links.*1 = Some final →
  NoDup links.*1 →
  Z.of_nat (length links) ≤ maxInt →
  let hops := ledger 1 links in
  (∀ fuel, (length links ≤ fuel)%nat →
     followRedirects net fuel seed = Some (Return final (Some hops) false None))
  ∧ length hops = length links
  ∧ Number <$> hops = Z.of_nat <$> seq 1 (length links)
  ∧ URL <$> hops = links.*1
  ∧ StatusCode <$> hops = links.*2
  ∧ last (URL <$> hops) = Some final.
Proof.
  intros Hch Hhd Hlast Hnd Hmax hops0. subst hops0.
  split; [|split; [apply ledger_length |
           split; [apply (ledger_Number links 1) |
           split; [apply ledger_URL |
           split; [apply ledger_StatusCode | by rewrite ledger_URL]]]]].
  intros fuel Hfuel. unfold followRedirects.
  apply (run_more net (length links)); [|done].
  rewrite (run_chain net links (initState seed) final); try done.
  intros u _. unfold visits, initState. cbn [visitedURLs].
  destruct (decide (seed = u)) as [->|Hne].
  - by rewrite lookup_insert_eq.
  - by rewrite lookup_insert_ne, lookup_empty.
Qed.

(** C1 (amended). For every redirect target whose query holds both the
    parameter [returnUri] and the parameter [redir], each with a value
    that is not empty and that decodes: the [returnUri] rewrite is
    computed first and the [redir] rewrite, computed after it, replaces
    its result. The resulting URL is the scheme, host and path of the
    target followed by a query string that consists solely of the [redir]
    parameter with its decoded value. *)
Theorem unwrapParams_redir_wins (redirectURLString : string) (u : url.URL)
    (returnURI redirURI decodedReturnURI decodedRedirURI : string) :
  url_Parse redirectURLString = Ok u →
  url.Values_Get (url_Query u) "returnUri" = returnURI →
  returnURI ≠ EmptyString →
  url.Values_Get (url_Query u) "redir" = redirURI →
  redirURI ≠ EmptyString →
  url_PathUnescape returnURI = Ok decodedReturnURI →
  url_PathUnescape redirURI = Ok decodedRedirURI →
  unwrapParams redirectURLString =
  Ok (url.Scheme u +:+ "://" +:+ url.Host u +:+ url.Path u +:+ "?redir="
      +:+ strings.ReplaceAll (strings.ReplaceAll decodedRedirURI "%3A" ":") "%2F" "/").
Proof.
  intros Hp <- Hr1 <- Hr2 Hd1 Hd2. unfold unwrapParams.
  apply isEmpty_false in Hr1, Hr2.
  rewrite Hp, Hr1, Hd1. cbn [bind]. by rewrite Hr2, Hd2.
Qed.

End Loop.

(** ** The scenarios of the specification, on the reference library *)

(** Scenario A: [http://a/1] redirects to [/b], which answers 200. *)
Example scenario_A :
  followRedirects ex.net_A 2 "http://a/1" =
  Some (Return "http://a/b"
          (Some [mkHop 1 "http://a/1" 302; mkHop 2 "http://a/b" 200])
          false None)
  ∧ makeCleanURL "http://a/b" = "http://a/b".
Proof. split; vm_compute; reflexivity. Qed.

(** The unwrapping of the specification: no other parameter is kept. *)
Example unwrapParams_returnUri :
  unwrapParams "https://x/r?returnUri=%2Fhome%3Fid%3D1&keep=no"
  = Ok "https://x/r?returnUri=/home?id=1".
Proof. vm_compute. reflexivity. Qed.

(** A URL that is not the seed is fetched twice before the loop is
    detected: with [http://a/1] leading to [http://a/b] and [http://a/b]
    leading to itself, [http://a/b] is requested at hops 2 and 3. *)
Example second_visit_is_fetched :
  followRedirects (ex.net_redirect "http://a/b") 4 "http://a/1" =
  Some (Return "http://a/b"
          (Some [mkHop 1 "http://a/1" 302; mkHop 2 "http://a/b" 302;
                 mkHop 3 "http://a/b" 302; mkHop 4 "http://a/b" 508])
          false None).
Proof. vm_compute. reflexivity. Qed.

(** ** Inputs on which the statements of the specification fail *)

(** C1 as stated fails: with both parameters present the result carries
    [redir], not [returnUri]. *)
Lemma unwrapParams_first_match_counterexample :
  (∃ u, url_Parse ex.both = Ok u
        ∧ url.Values_Get (url_Query u) "returnUri" = "/home"
        ∧ url.Values_Get (url_Query u) "redir" = "/away")
  ∧ unwrapParams ex.both = Ok "https://x/r?redir=/away"
  ∧ unwrapParams ex.both ≠ Ok "https://x/r?returnUri=/home".
Proof.
  split; [eexists; split; [reflexivity | split; vm_compute; reflexivity] |].
  split; [vm_compute; reflexivity | vm_compute; discriminate].
Qed.

(** C2 as stated fails: at the first iteration the visit count of the
    seed is 1, and the seed is fetched; the loop is not reported. *)
Lemma loop_check_at_one_visit_counterexample :
  let st := initState "http://a/1" in
  stateAt ex.net_ok 0 (initState "http://a/1") = Some st
  ∧ 1 ≤ visits (visitedURLs st) (urlStr st)
  ∧ iteration ex.net_ok st
    = Done (Return "http://a/1" (Some [mkHop 1 "http://a/1" 200]) false None)
  ∧ iteration ex.net_ok st
    ≠ Done (Return "http://a/1"
              (Some [mkHop 1 "http://a/1" http.StatusLoopDetected]) false None).
Proof.
  cbv zeta. split; [reflexivity |]. split; [by vm_compute |].
  split; [vm_compute; reflexivity | vm_compute; discriminate].
Qed.

(** C3 as stated fails: without [Location] and without Cloudflare the
    final URL returned is the empty string, not the current URL. *)
Lemma redirect_without_location_counterexample :
  followRedirects (ex.net_no_location "nginx") 1 "http://a/1"
  = Some (Return EmptyString (Some []) false None)
  ∧ followRedirects (ex.net_no_location "nginx") 1 "http://a/1"
    ≠ Some (Return "http://a/1" (Some []) false None).
Proof. split; [vm_compute; reflexivity | vm_compute; discriminate]. Qed.

(** C6 as stated fails: a seed of the special provider that redirects to
    itself takes the shortcut; no loop is reported, and the second hop has
    number 3 and status 200. *)
Lemma self_loop_at_special_provider_counterexample :
  http_NewRequest ex.owa = Ok ex.owa_parsed
  ∧ ex.net_redirect ex.owa 0%nat ex.owa_parsed
    = http.DoOk (http.mkResponse 302 (ex.header ex.owa "nginx"))
  ∧ redirectTarget None ex.owa ex.owa_parsed = Ok (ex.owa, ex.owa_parsed)
  ∧ followRedirects (ex.net_redirect ex.owa) 2 ex.owa
    = Some (Return ex.owa (Some [mkHop 1 ex.owa 302; mkHop 3 ex.owa 200]) false None)
  ∧ followRedirects (ex.net_redirect ex.owa) 2 ex.owa
    ≠ Some (Return ex.owa
              (Some [mkHop 1 ex.owa 302; mkHop 2 ex.owa http.StatusLoopDetected])
              false None).
Proof.
  repeat split; try (vm_compute; reflexivity). vm_compute. discriminate.
Qed.

(** ** The theorems at concrete inputs *)

Lemma unwrapParams_redir_wins_witness :
  unwrapParams ex.both = Ok "https://x/r?redir=/away".
Proof.
  refine (unwrapParams_redir_wins (H := RefLib) ex.both ex.both_parsed
            "/home" "/away" "/home" "/away" _ _ _ _ _ _ _);
    solve [reflexivity | vm_compute; reflexivity | discriminate].
Defined.

Lemma loop_detected_from_two_visits_witness :
    stateAt (ex.net_redirect "http://a/1") 1 (initState "http://a/1")
    = Some ex.self_loop_state
    ∧ 2 ≤ visits (visitedURLs ex.self_loop_state) (urlStr ex.self_loop_state)
    ∧ followRedirects (ex.net_redirect "http://a/1") 2 "http://a/1"
      = Some (Return "http://a/1"
                (Some [mkHop 1 "http://a/1" 302; mkHop 2 "http://a/1" 508])
                false None).
Proof.
  split; [vm_compute; reflexivity |]. split; [by vm_compute |].
  refine (proj2 (loop_detected_from_two_visits (H := RefLib)
                   (ex.net_redirect "http://a/1") "http://a/1" 1
                   ex.self_loop_state _ _) 2%nat _);
    [vm_compute; reflexivity | by vm_compute | lia].
Defined.

(** Scenario C: a 302 without [Location] from Cloudflare is reported as
    blocked, and no hop is returned. *)
Lemma redirect_without_location_witness :
  followRedirects (ex.net_no_location "cloudflare") 1 "http://a/1"
  = Some (Return EmptyString (Some []) true None).
Proof.
  refine (redirect_without_location (H := RefLib)
            (ex.net_no_location "cloudflare") "http://a/1" 0
            (initState "http://a/1") ex.a_1
            (http.mkResponse 302 (<["Server" := ["cloudflare"]]> ∅))
            _ _ _ _ _ _ 1%nat _);
    [reflexivity | by vm_compute | reflexivity | reflexivity
    | by vm_compute | reflexivity | lia].
Defined.

Lemma plain_chain_ledger_witness :
  followRedirects ex.net_A 2 "http://a/1"
  = Some (Return "http://a/b" (Some (ledger 1 ex.links_A)) false None)
  ∧ Number <$> ledger 1 ex.links_A = [1; 2].
Proof.
  assert (Hch : chain ex.net_A 0 None ex.links_A).
  { cbn [chain ex.links_A]. eexists _, _.
    split; [reflexivity |]. split; [reflexivity |]. split; [reflexivity |].
    split; [reflexivity |]. split; [discriminate |]. split; [reflexivity |].
    eexists. split; [vm_compute; reflexivity |].
    eexists _, _. repeat split; reflexivity. }
  assert (Hnd : NoDup ex.links_A.*1).
  { apply NoDup_cons. split; [|apply NoDup_singleton].
    rewrite list_elem_of_singleton. discriminate. }
  destruct (plain_chain_ledger (H := RefLib) ex.net_A ex.links_A
              "http://a/1" "http://a/b" Hch eq_refl eq_refl Hnd)
    as (Hrun & _ & Hnum & _).
  { by vm_compute. }
  split; [apply Hrun; cbn; lia | exact Hnum].
Defined.

Lemma special_provider_shortcut_witness :
  followRedirects (ex.net_redirect "https://outlook.office365.com/owa/") 1 "http://a/1"
  = Some (Return "https://outlook.office365.com/owa/"
            (Some [mkHop 1 "http://a/1" 302;
                   mkHop 3 "https://outlook.office365.com/owa/" 200])
            false None).
Proof.
  refine (special_provider_shortcut (H := RefLib)
            (ex.net_redirect "https://outlook.office365.com/owa/") "http://a/1" 0
            (initState "http://a/1") ex.a_1
            (http.mkResponse 302 (ex.header "https://outlook.office365.com/owa/" "nginx"))
            _ _ _ _ _ _ _ 1%nat _);
    [reflexivity | by vm_compute | reflexivity | reflexivity
    | by vm_compute | reflexivity | by vm_compute | lia].
Defined.

(** Scenario B: the seed redirects to itself. *)
Lemma self_loop_detected_witness :
  followRedirects (ex.net_redirect "http://a/1") 2 "http://a/1"
  = Some (Return "http://a/1"
            (Some [mkHop 1 "http://a/1" 302; mkHop 2 "http://a/1" 508])
            false None).
Proof.
  refine (self_loop_detected (H := RefLib) (ex.net_redirect "http://a/1")
            "http://a/1" ex.a_1
            (http.mkResponse 302 (ex.header "http://a/1" "nginx")) ex.a_1
            _ _ _ _ _ _ 2%nat _);
    [reflexivity | reflexivity | by vm_compute | discriminate | reflexivity
    | vm_compute; reflexivity | lia].
Defined.

Lemma error_carries_no_partial_result_witness :
  followRedirects ex.net_down 1 "http://a/1"
  = Some (Return EmptyString None false
            (Some (fmt_Errorf "error accessing URL: "
                     (lib_error "dial tcp: no route to host"))))
  ∧ isTraceError (fmt_Errorf "error accessing URL: "
                    (lib_error "dial tcp: no route to host")).
Proof.
  split; [vm_compute; reflexivity |].
  refine (proj2 (proj2 (error_carries_no_partial_result (H := RefLib) ex.net_down 1
                          "http://a/1" EmptyString None false _ _))).
  vm_compute; reflexivity.
Defined.

(** * Further properties of the program *)

(** ** Invariants of the redirect-resolution loop *)

Section LoopInvariants.

Context `{NetLib}.
Implicit Types (net : Network) (st : State) (o : Outcome).

(** A property that holds before the loop and that every iteration that
    goes on keeps, holds at the head of every iteration. *)
Lemma stateAt_preserves net (P : State → Prop) :
  (∀ st st', P st → iteration net st = Continue st' → P st') →
  ∀ n st0 st, P st0 → stateAt net n st0 = Some st → P st.
Proof.
  intros Hstep. induction n as [|n IH]; intros st0 st H0; cbn [stateAt].
  - by intros [= <-].
  - destruct (iteration net st0) as [st1|o] eqn:Hit; [|done].
    apply IH. by eapply Hstep.
Qed.

Lemma stateAt_S_r net n :
  ∀ st0 st st', stateAt net n st0 = Some st → iteration net st = Continue st' →
                stateAt net (S n) st0 = Some st'.
Proof.
  induction n as [|n IH]; intros st0 st st'.
  - intros [= ->] Hit. cbn [stateAt]. by rewrite Hit.
  - intros Hst Hit. cbn [stateAt] in Hst |- *.
    destruct (iteration net st0) as [st1|o]; [|done].
    by apply (IH st1 st st').
Qed.

(** The fuel runs out exactly when every iteration it pays for goes on. *)
Lemma run_None net fuel :
  ∀ st, run net fuel st = None ↔ ∃ st', stateAt net fuel st = Some st'.
Proof.
  induction fuel as [|fuel IH]; intros st; cbn [run stateAt].
  - split; [eauto | done].
  - destruct (iteration net st) as [st1|o]; [apply IH |].
    split; [done | by intros [? ?]].
Qed.

(** A result is the result of the iteration that left the loop. *)
Lemma run_Some net fuel :
  ∀ st o, run net fuel st = Some o →
          ∃ n st', (n < fuel)%nat ∧ stateAt net n st = Some st'
                   ∧ iteration net st' = Done o.
Proof.
  induction fuel as [|fuel IH]; intros st o; cbn [run]; [done |].
  destruct (iteration net st) as [st1|o1] eqn:Hit.
  - intros Hrun. destruct (IH _ _ Hrun) as (n & st' & Hn & Hst & Hd).
    exists (S n), st'. split; [lia |]. split; [|done].
    cbn [stateAt]. by rewrite Hit.
  - intros [= ->]. exists 0%nat, st. split; [lia |]. done.
Qed.

Lemma requests_snoc (u : string) (hs : list Hop) (h : Hop) :
  requests u (hs ++ [h]) = (requests u hs + (if decide (URL h = u) then 1 else 0))%nat.
Proof.
  unfold requests. rewrite filter_app, length_app. f_equal.
  rewrite filter_cons. by destruct (decide (URL h = u)).
Qed.

Lemma visits_invariant net seed n st :
  stateAt net n (initState seed) = Some st →
  ∀ v, visits (visitedURLs st) v
       = Z.of_nat (requests v (hops st)) + (if decide (v = seed) then 1 else 0)
       ∧ visits (visitedURLs st) v ≤ 2.
Proof.
  apply (stateAt_preserves net
    (λ st, ∀ v, visits (visitedURLs st) v
                = Z.of_nat (requests v (hops st)) + (if decide (v = seed) then 1 else 0)
                ∧ visits (visitedURLs st) v ≤ 2)).
  - clear st. intros st st' Hinv Hit v.
    apply iteration_Continue in Hit
      as (q & resp & s & p & Hv & _ & _ & _ & _ & ->).
    cbn [visitedURLs hops]. rewrite requests_snoc. cbn [URL].
    destruct (Hinv (urlStr st)) as [Hcur _]. destruct (Hinv v) as [Hveq Hvle].
    unfold visits at 1 3.
    destruct (decide (urlStr st = v)) as [<-|Hne].
    + rewrite lookup_insert_eq. cbn [default]. unfold id.
      destruct (decide (urlStr st = seed));
        rewrite wrapInt_small by (unfold maxInt, intSize; lia); lia.
    + rewrite lookup_insert_ne by done. fold (visits (visitedURLs st) v).
      destruct (decide (v = seed)); lia.
  - intros v. unfold initState, visits, requests. cbn [visitedURLs hops].
    destruct (decide (v = seed)) as [->|Hne].
    + rewrite lookup_insert_eq. cbn. lia.
    + rewrite lookup_insert_ne by done. rewrite lookup_empty. cbn. lia.
Qed.

Lemma requests_bound net seed n st (v : string) :
  stateAt net n (initState seed) = Some st →
  (requests v (hops st) ≤ if decide (v = seed) then 1 else 2)%nat.
Proof.
  intros Hst. destruct (visits_invariant _ _ _ _ Hst v) as [Heq Hle].
  destruct (decide (v = seed)); lia.
Qed.

(** X1. At the head of every iteration of a resolution, the visit count of
    every URL is the number of requests made for it so far, plus one for
    the seed; no count exceeds 2.  So a resolution requests the seed at
    most once and every other URL at most twice. *)
Theorem visits_count_requests net seed n st (u : string) :
  stateAt net n (initState seed) = Some st →
  visits (visitedURLs st) u
  = Z.of_nat (requests u (hops st)) + (if decide (u = seed) then 1 else 0)
  ∧ visits (visitedURLs st) u ≤ 2
  ∧ (requests u (hops st) ≤ if decide (u = seed) then 1 else 2)%nat.
Proof.
  intros Hst. destruct (visits_invariant _ _ _ _ Hst u) as [Heq Hle].
  split; [done |]. split; [done |]. by eapply requests_bound.
Qed.

Lemma length_filter_split {A : Type} (P : A → Prop) `{∀ a, Decision (P a)}
    (l : list A) :
  length l = (length (filter P l) + length (filter (λ a, ¬ P a) l))%nat.
Proof.
  induction l as [|a l IH]; [done |].
  rewrite !filter_cons. destruct (decide (P a)), (decide (¬ P a)); cbn; try lia; done.
Qed.

Lemma length_filter_filter_le {A : Type} (P Q : A → Prop)
    `{∀ a, Decision (P a)} `{∀ a, Decision (Q a)} (l : list A) :
  (length (filter P (filter Q l)) ≤ length (filter P l))%nat.
Proof.
  induction l as [|a l IH]; [done |].
  rewrite (filter_cons Q). destruct (decide (Q a)).
  - rewrite !filter_cons. destruct (decide (P a)); cbn; lia.
  - rewrite filter_cons. destruct (decide (P a)); cbn; lia.
Qed.

(** A list whose keys lie in a finite set and occur at most [k] times each
    has at most [k] times as many elements as the set. *)
Lemma pigeonhole {A : Type} (key : A → string) (k : nat) (S : gset string) :
  ∀ l : list A,
    (∀ a, a ∈ l → key a ∈ S) →
    (∀ x, length (filter (λ a, key a = x) l) ≤ k)%nat →
    (length l ≤ k * size S)%nat.
Proof.
  induction S as [|x X Hx IH] using set_ind_L; intros l Hin Hcount.
  - destruct l as [|a l]; [cbn; lia |].
    pose proof (Hin a (list_elem_of_here _ _)) as Ha.
    by apply not_elem_of_empty in Ha.
  - rewrite size_union by (by apply disjoint_singleton_l). rewrite size_singleton.
    rewrite (length_filter_split (λ a, key a = x) l).
    specialize (IH (filter (λ a, ¬ key a = x) l)).
    specialize (Hcount x) as Hcx.
    cut (length (filter (λ a, ¬ key a = x) l) ≤ k * size X)%nat; [lia |].
    apply IH.
    + intros a [Hne Ha]%list_elem_of_filter.
      apply Hin, elem_of_union in Ha as [Ha%elem_of_singleton | Ha]; done.
    + intros y. etrans; [apply length_filter_filter_le | apply Hcount].
Qed.

(** X2. A resolution that only ever reaches URLs of a finite set [U] ends:
    the loop is left within [2 * size U] iterations, whatever the network
    answers. *)
Theorem followRedirects_terminates net seed (U : gset string) :
  (∀ n st, stateAt net n (initState seed) = Some st → urlStr st ∈ U) →
  ∃ o, followRedirects net (2 * size U) seed = Some o.
Proof.
  intros Hreach.
  destruct (followRedirects net (2 * size U) seed) as [o|] eqn:Hrun; [by exists o |].
  exfalso. apply run_None in Hrun as [st Hst].
  assert (Hseed : seed ∈ U) by apply (Hreach 0%nat (initState seed) eq_refl).
  assert (Hurls : ∀ h, h ∈ hops st → URL h ∈ U).
  { cut ((∃ n, stateAt net n (initState seed) = Some st)
         ∧ ∀ h, h ∈ hops st → URL h ∈ U); [by intros [_ ?] |].
    revert Hst. apply (stateAt_preserves net
      (λ st, (∃ n, stateAt net n (initState seed) = Some st)
             ∧ ∀ h, h ∈ hops st → URL h ∈ U)).
    - intros st1 st2 [[m Hm] Hin] Hit. split.
      + exists (S m). by eapply stateAt_S_r.
      + apply iteration_Continue in Hit
          as (q & resp & s & p & _ & _ & _ & _ & _ & ->).
        cbn [hops]. intros h [Hh | ->%list_elem_of_singleton]%elem_of_app.
        * by apply Hin.
        * cbn [URL]. by eapply Hreach.
    - split; [by exists 0%nat |]. intros h Hh. by apply elem_of_nil in Hh. }
  destruct (stateAt_init _ _ _ _ Hst) as (_ & Hlen & _).
  pose proof (requests_bound _ _ _ _ seed Hst) as Hone.
  rewrite decide_True in Hone by done.
  assert (Hrest : (length (filter (λ h, ¬ URL h = seed) (hops st))
                   ≤ 2 * size (U ∖ {[seed]}))%nat).
  { apply (pigeonhole URL).
    - intros h [Hne Hh]%list_elem_of_filter.
      apply elem_of_difference. split; [by apply Hurls | by rewrite elem_of_singleton].
    - intros x. etrans; [apply length_filter_filter_le |].
      pose proof (requests_bound _ _ _ _ x Hst) as Hx.
      unfold requests in Hx. destruct (decide (x = seed)); lia. }
  assert (Hsub : ({[seed]} : gset string) ⊆ U) by by apply singleton_subseteq_l.
  rewrite size_difference in Hrest by done.
  apply subseteq_size in Hsub.
  rewrite size_singleton in Hrest, Hsub.
  rewrite (length_filter_split (λ h, URL h = seed)) in Hlen.
  unfold requests in Hone. lia.
Qed.

(** What an iteration returns when it returns hops and no error. *)
Lemma iteration_returns net st u hs cf :
  iteration net st = Done (Return u (Some hs) cf None) →
  (hs = [] ∧ u = EmptyString)
  ∨ (cf = cloudflareStatus st
     ∧ ∃ c,
         (hs = hops st ++ [mkHop (number st) (urlStr st) c]
          ∧ u = urlStr st ∧ isRedirect c = false)
         ∨ (hs = hops st ++ [mkHop (number st) (urlStr st) c;
                             mkHop (wrapInt (number st + 2)) u http.StatusOK]
            ∧ isRedirect c = true
            ∧ strings.HasPrefix u "https://outlook.office365.com" = true)).
Proof.
  unfold iteration. intros Hit.
  repeat case_match; try discriminate; inject_results; subst;
    first [ by left
          | right; split; [done |]; eexists;
            first [ left; done | right; by rewrite <- app_assoc ] ].
Qed.

Lemma hops_redirects net seed n st :
  stateAt net n (initState seed) = Some st →
  Forall (λ h, isRedirect (StatusCode h) = true) (hops st).
Proof.
  apply (stateAt_preserves net
           (λ st, Forall (λ h, isRedirect (StatusCode h) = true) (hops st))).
  - intros st1 st2 Hall Hit.
    apply iteration_Continue in Hit as (q & resp & s & p & _ & _ & _ & Hr & _ & ->).
    cbn [hops]. apply Forall_app. split; [done |]. by apply Forall_singleton.
  - by apply Forall_nil.
Qed.

Lemma hops_numbers net seed n st :
  stateAt net n (initState seed) = Some st →
  Z.of_nat n + 1 ≤ maxInt →
  number st = Z.of_nat n + 1
  ∧ Number <$> hops st = Z.of_nat <$> seq 1 n.
Proof.
  intros Hst Hmax. destruct (stateAt_init _ _ _ _ Hst) as (_ & Hlen & _).
  rewrite <- Hlen in Hmax |- *. clear Hlen. revert Hst Hmax.
  apply (stateAt_preserves net
    (λ st, Z.of_nat (length (hops st)) + 1 ≤ maxInt →
           number st = Z.of_nat (length (hops st)) + 1
           ∧ Number <$> hops st = Z.of_nat <$> seq 1 (length (hops st)))).
  - intros st1 st2 Hinv Hit.
    apply iteration_Continue in Hit as (q & resp & s & p & _ & _ & _ & _ & _ & ->).
    cbn [hops number]. rewrite length_app. cbn [length]. intros Hmax.
    destruct Hinv as [Hnum Hnums]; [lia |].
    split.
    + rewrite Hnum. rewrite wrapInt_small; unfold maxInt, intSize in *; lia.
    + rewrite fmap_app, Hnums. rewrite Nat.add_1_r, seq_S, fmap_app. cbn.
      do 2 f_equal. lia.
  - cbn. done.
Qed.

Lemma followRedirects_returns net fuel seed u hs cf :
  followRedirects net fuel seed = Some (Return u (Some hs) cf None) →
  (hs = [] ∧ u = EmptyString)
  ∨ ∃ n st c,
      stateAt net n (initState seed) = Some st
      ∧ cf = false
      ∧ ((hs = hops st ++ [mkHop (number st) (urlStr st) c]
          ∧ u = urlStr st ∧ isRedirect c = false)
         ∨ (hs = hops st ++ [mkHop (number st) (urlStr st) c;
                             mkHop (wrapInt (number st + 2)) u http.StatusOK]
            ∧ isRedirect c = true
            ∧ strings.HasPrefix u "https://outlook.office365.com" = true)).
Proof.
  unfold followRedirects. intros Hrun.
  apply run_Some in Hrun as (n & st & _ & Hst & Hit).
  apply iteration_returns in Hit as [?|(-> & c & Hc)]; [by left | right].
  exists n, st, c. split; [done |]. split; [|done].
  by destruct (stateAt_init _ _ _ _ Hst) as (-> & _).
Qed.

(** X3. Whenever [followRedirects] returns hops without an error, the
    final URL it returns is the URL of the last hop; the only exception
    is the empty ledger, which comes with the empty string, and the
    Cloudflare flag is set only there. *)
Theorem final_url_is_last_hop net fuel seed u hs cf :
  followRedirects net fuel seed = Some (Return u (Some hs) cf None) →
  (hs = [] ∧ u = EmptyString)
  ∨ (cf = false ∧ URL <$> last hs = Some u).
Proof.
  intros Hrun.
  apply followRedirects_returns in Hrun
    as [?|(n & st & c & _ & -> & [(-> & -> & _)|(-> & _)])]; [by left | |];
    right; split; try done.
  - by rewrite last_snoc.
  - change [mkHop (number st) (urlStr st) c; mkHop (wrapInt (number st + 2)) u http.StatusOK]
      with ([mkHop (number st) (urlStr st) c]
            ++ [mkHop (wrapInt (number st + 2)) u http.StatusOK]).
    by rewrite app_assoc, last_snoc.
Qed.

(** X4. In every ledger that [followRedirects] returns without an error,
    every hop but the last has a redirect status (300-399) and the last
    hop has not: its status is final, the loop-detected 508, or the 200
    of the special-provider shortcut. *)
Theorem ledger_statuses net fuel seed u hs cf :
  followRedirects net fuel seed = Some (Return u (Some hs) cf None) →
  hs = []
  ∨ ∃ front lastHop,
      hs = front ++ [lastHop]
      ∧ Forall (λ h, 300 ≤ StatusCode h ≤ 399) front
      ∧ ¬ (300 ≤ StatusCode lastHop ≤ 399).
Proof.
  intros Hrun.
  apply followRedirects_returns in Hrun
    as [[? _]|(n & st & c & Hst & _ & [(-> & _ & Hc)|(-> & Hc & _)])]; [by left | |];
    right; pose proof (hops_redirects _ _ _ _ Hst) as Hall.
  - eexists _, _. split; [reflexivity |]. split.
    + eapply Forall_impl; [exact Hall |]. intros h. by rewrite isRedirect_true.
    + cbn. rewrite <- isRedirect_true. by rewrite Hc.
  - exists (hops st ++ [mkHop (number st) (urlStr st) c]), 
           (mkHop (wrapInt (number st + 2)) u http.StatusOK).
    split; [by rewrite <- app_assoc |]. split.
    + apply Forall_app. split.
      * eapply Forall_impl; [exact Hall |]. intros h. by rewrite isRedirect_true.
      * apply Forall_singleton. cbn. by apply isRedirect_true.
    + cbn. unfold http.StatusOK. lia.
Qed.

(** X5. In every ledger that [followRedirects] returns without an error
    the hops are numbered 1, 2, 3, ... in order, with one exception: the
    hop that the special-provider shortcut adds at the end skips a
    number.  (The ledger is shorter than the largest Go [int].) *)
Theorem ledger_numbers net fuel seed u hs cf :
  followRedirects net fuel seed = Some (Return u (Some hs) cf None) →
  Z.of_nat (length hs) + 1 ≤ maxInt →
  Number <$> hs = Z.of_nat <$> seq 1 (length hs)
  ∨ ∃ front lastHop,
      hs = front ++ [lastHop]
      ∧ Number <$> front = Z.of_nat <$> seq 1 (length front)
      ∧ Number lastHop = Z.of_nat (length front) + 2
      ∧ StatusCode lastHop = http.StatusOK
      ∧ strings.HasPrefix (URL lastHop) "https://outlook.office365.com" = true.
Proof.
  intros Hrun Hmax.
  apply followRedirects_returns in Hrun
    as [[-> _]|(n & st & c & Hst & _ & [(-> & _ & _)|(-> & _ & Hp)])]; [by left | |];
    destruct (stateAt_init _ _ _ _ Hst) as (_ & Hlen & _);
    rewrite length_app, Hlen in Hmax; cbn [length] in Hmax;
    destruct (hops_numbers _ _ _ _ Hst) as [Hnum Hnums]; try lia.
  - left. rewrite length_app, Hlen. cbn [length].
    rewrite fmap_app, Hnums, Nat.add_1_r, seq_S, fmap_app. cbn.
    do 2 f_equal. lia.
  - right.
    exists (hops st ++ [mkHop (number st) (urlStr st) c]), 
           (mkHop (wrapInt (number st + 2)) u http.StatusOK).
    split; [by rewrite <- app_assoc |].
    rewrite length_app, Hlen. cbn [length Number StatusCode URL].
    split; [|split; [|done]].
    + rewrite fmap_app, Hnums, Nat.add_1_r, seq_S, fmap_app. cbn.
      do 2 f_equal. lia.
    + rewrite Hnum. rewrite wrapInt_small; unfold maxInt, intSize in *; lia.
Qed.

Lemma handleRelativeRedirect_with_request previousURL location reqURL (e : error) :
  handleRelativeRedirect previousURL location (Some reqURL) = Err e →
  ∃ msg, e = lib_error msg ∧ url_Parse location = Err msg.
Proof.
  unfold handleRelativeRedirect.
  destruct (url_Parse location) as [r|msg]; cbn [lib bind].
  - destruct previousURL as [p|]; destruct (isEmpty (url.Scheme r)); cbn [bind];
      match goal with
      | |- context [isEmpty ?h] => destruct (isEmpty h)
      end; discriminate.
  - intros [= <-]. by exists msg.
Qed.

Lemma redirectTarget_relative_error previousURL location reqURL (cause : error) :
  redirectTarget previousURL location reqURL
  = Err (fmt_Errorf "error handling relative redirect: " cause) →
  ∃ msg, cause = lib_error msg ∧ url_Parse location = Err msg.
Proof.
  unfold redirectTarget. intros Ht.
  destruct (handleRelativeRedirect _ _ _) as [ru|err] eqn:Hh.
  - unfold unwrapParams, bind in Ht. repeat case_match; congruence.
  - injection Ht as ->. by apply handleRelativeRedirect_with_request in Hh.
Qed.

(** X6. [followRedirects] always hands the URL of the request to
    [handleRelativeRedirect], so the two failures of that function for a
    missing scheme or host never come out of a resolution: an error
    about the relative redirect is always a [Location] that did not
    parse. *)
Theorem relative_redirect_error_is_parse_error net fuel seed u hs cf (cause : error) :
  followRedirects net fuel seed
  = Some (Return u hs cf (Some (fmt_Errorf "error handling relative redirect: " cause))) →
  (∃ msg location, cause = lib_error msg ∧ url_Parse location = Err msg)
  ∧ cause ≠ MissingScheme ∧ cause ≠ MissingHost.
Proof.
  unfold followRedirects. intros Hrun.
  apply run_Some in Hrun as (n & st & _ & _ & Hit).
  cut (∃ msg location, cause = lib_error msg ∧ url_Parse location = Err msg).
  { intros (msg & location & -> & Hp). split; [by eauto |]. by split. }
  unfold iteration in Hit.
  repeat case_match; try discriminate.
  injection Hit as <- <- <- ->.
  match goal with
  | Ht : redirectTarget _ _ _ = Err _ |- _ =>
      apply redirectTarget_relative_error in Ht as (msg & -> & Hp)
  end.
  by eauto.
Qed.

(** X7. A request that fails ends the resolution at once, and the hops
    gathered so far are not returned: a timeout ends the process with the
    line [Timeout error] and exit code 1 (whatever the message says), an
    unknown certificate authority with the line [Validation error] and
    exit code 1, and every other failure is returned as an error with
    the empty string and a nil hop list. *)
Theorem failed_request_ends_resolution net seed n st reqURL (e : http.ClientError) :
  stateAt net n (initState seed) = Some st →
  visits (visitedURLs st) (urlStr st) ≤ 1 →
  http_NewRequest (urlStr st) = Ok reqURL →
  net n reqURL = http.DoErr e →
  ∀ fuel, (n < fuel)%nat →
    followRedirects net fuel seed =
    Some (if http.Timeout e then Exit "Timeout error" 1
          else if strings.Contains (http.Message e)
                    "x509: certificate signed by unknown authority"
          then Exit "Validation error" 1
          else Return EmptyString None false
                 (Some (fmt_Errorf "error accessing URL: " (lib_error (http.Message e))))).
Proof.
  intros Hst Hv Hq Hn fuel Hlt.
  destruct (stateAt_init _ _ _ _ Hst) as (Hcf & Hlen & _).
  eapply followRedirects_at; [exact Hst | | exact Hlt].
  unfold iteration. apply Z.ltb_ge in Hv. rewrite Hv, Hq, Hlen, Hn, Hcf.
  destruct (http.Timeout e); [done |]. by destruct (strings.Contains _ _).
Qed.

End LoopInvariants.

(** ** Clean URL, status classes, terse output *)

Lemma prefix_refl (s : string) : String.prefix s s = true.
Proof.
  induction s as [|c s IH]; [done |]. cbn [String.prefix].
  by destruct (ascii_dec c c).
Qed.

Lemma prefix_substring (s : string) :
  ∀ i, String.prefix (String.substring 0 i s) s = true.
Proof.
  induction s as [|c s IH]; intros [|i]; try done.
  change (String.substring 0 (S i) (String c s))
    with (String c (String.substring 0 i s)).
  cbn [String.prefix]. by destruct (ascii_dec c c).
Qed.

(** X8. The clean URL is a prefix of the URL it is derived from, and it
    holds no ['?']. *)
Theorem makeCleanURL_prefix (u : string) :
  strings.HasPrefix u (makeCleanURL u) = true
  ∧ strings.Contains (makeCleanURL u) "?" = false.
Proof.
  unfold strings.HasPrefix, strings.Contains. rewrite makeCleanURL_Index.
  destruct (strings.Index u "?") as [i|] eqn:Hi.
  - split; [apply prefix_substring |]. by rewrite (Index_byte_before _ _ _ Hi).
  - split; [apply prefix_refl |]. by rewrite Hi.
Qed.

Lemma makeCleanURL_fixed (u : string) :
  makeCleanURL u = u ↔ strings.Contains u "?" = false.
Proof.
  unfold strings.Contains. rewrite makeCleanURL_Index.
  destruct (strings.Index u "?") as [i|] eqn:Hi.
  - split; [|done]. intros Heq.
    pose proof (Index_byte_before _ _ _ Hi) as Hnone.
    rewrite Heq, Hi in Hnone. done.
  - done.
Qed.

(** X9. The clean URL differs from the URL exactly when the URL holds a
    ['?']. *)
Theorem makeCleanURL_differs_iff_query (u : string) :
  makeCleanURL u ≠ u ↔ strings.Contains u "?" = true.
Proof.
  rewrite makeCleanURL_fixed. by destruct (strings.Contains u "?").
Qed.

(** X10. [getStatusCodeClass] classifies by the hundreds digit: for a code
    from 200 to 599 the class is that digit followed by [xx], and for
    every other code, negative ones included, it is the empty string. *)
Theorem getStatusCodeClass_hundreds (statusCode : Z) :
  getStatusCodeClass statusCode =
  if (200 <=? statusCode) && (statusCode <=? 599)
  then String (ascii_of_N (48 + Z.to_N (statusCode / 100))) "xx"
  else EmptyString.
Proof.
  unfold getStatusCodeClass.
  destruct (Z.leb_spec 200 statusCode), (Z.leb_spec statusCode 599); cbn [andb].
  - destruct (Z.ltb_spec statusCode 300); cbn [andb].
    { by replace (statusCode / 100) with 2
        by (apply (Z.div_unique _ 100 _ (statusCode - 200)); lia). }
    destruct (Z.leb_spec 300 statusCode); [|lia].
    destruct (Z.ltb_spec statusCode 400); cbn [andb].
    { by replace (statusCode / 100) with 3
        by (apply (Z.div_unique _ 100 _ (statusCode - 300)); lia). }
    destruct (Z.leb_spec 400 statusCode); [|lia].
    destruct (Z.ltb_spec statusCode 500); cbn [andb].
    { by replace (statusCode / 100) with 4
        by (apply (Z.div_unique _ 100 _ (statusCode - 400)); lia). }
    destruct (Z.leb_spec 500 statusCode); [|lia].
    destruct (Z.ltb_spec statusCode 600); cbn [andb]; [|lia].
    by replace (statusCode / 100) with 5
        by (apply (Z.div_unique _ 100 _ (statusCode - 500)); lia).
  - destruct (Z.ltb_spec statusCode 300); [lia |]. cbn [andb].
    destruct (Z.ltb_spec statusCode 400); [lia |]. rewrite andb_false_r.
    destruct (Z.ltb_spec statusCode 500); [lia |]. rewrite andb_false_r.
    destruct (Z.ltb_spec statusCode 600); [lia |]. by rewrite andb_false_r.
  - destruct (Z.leb_spec 300 statusCode); [lia |].
    destruct (Z.leb_spec 400 statusCode); [lia |].
    destruct (Z.leb_spec 500 statusCode); [lia |]. done.
  - lia.
Qed.

(** X11. The terse printer always writes the clean URL and a line end,
    whichever of its two branches is taken. *)
Theorem printTerseTraceResult_clean (redirectURL : string) :
  printTerseTraceResult redirectURL = makeCleanURL redirectURL +:+ nl.
Proof.
  unfold printTerseTraceResult.
  destruct (String.eqb_spec (makeCleanURL redirectURL) redirectURL) as [Heq|Hne];
    cbn [negb]; [by rewrite Heq | done].
Qed.

(** ** The other revisions of [followRedirects] *)

Section Revisions.

Context `{NetLib}.
Implicit Types (net : Network) (st : State).

(** One iteration of url-tracer.go is one iteration of go-trace.go once
    the classes are erased. *)
Lemma tracer_iteration_erase net (tst : tracer.State) :
  iteration net (eraseState tst) =
  match tracer.iteration net tst with
  | tracer.Continue tst' => Continue (eraseState tst')
  | tracer.Done o => Done (eraseOutcome o)
  end.
Proof.
  unfold iteration, tracer.iteration, eraseState.
  cbn [urlStr hops number previousURL visitedURLs cloudflareStatus].
  rewrite length_fmap.
  repeat case_match; try done; cbn [eraseOutcome option_map eraseState];
    cbn [tracer.urlStr tracer.hops tracer.number tracer.previousURL
         tracer.visitedURLs tracer.cloudflareStatus];
    rewrite ?fmap_app; done.
Qed.

Lemma tracer_run_erase net fuel :
  ∀ tst, eraseOutcome <$> tracer.run net fuel tst = run net fuel (eraseState tst).
Proof.
  induction fuel as [|fuel IH]; intros tst; cbn [run tracer.run]; [done |].
  rewrite tracer_iteration_erase.
  destruct (tracer.iteration net tst) as [tst'|o]; [apply IH | done].
Qed.

Lemma tracer_iteration_classes net (tst : tracer.State) :
  Forall (λ h, tracer.StatusCodeClass h = getStatusCodeClass (tracer.StatusCode h))
         (tracer.hops tst) →
  match tracer.iteration net tst with
  | tracer.Continue tst' =>
      Forall (λ h, tracer.StatusCodeClass h = getStatusCodeClass (tracer.StatusCode h))
             (tracer.hops tst')
  | tracer.Done o =>
      Forall (λ h, tracer.StatusCodeClass h = getStatusCodeClass (tracer.StatusCode h))
             (tracerHops o)
  end.
Proof.
  intros Hall. destruct (tracer.iteration net tst) as [tst'|o] eqn:Hit;
    unfold tracer.iteration in Hit;
    repeat case_match; try discriminate;
    repeat match goal with
           | E : tracer.Continue _ = tracer.Continue _ |- _ => injection E as <-
           | E : tracer.Done _ = tracer.Done _ |- _ => injection E as <-
           end;
    cbn [tracerHops tracer.hops];
    repeat (apply Forall_app; split); try done;
    try (apply Forall_singleton; done); by apply Forall_nil.
Qed.

Lemma tracer_run_classes net fuel :
  ∀ tst o,
    Forall (λ h, tracer.StatusCodeClass h = getStatusCodeClass (tracer.StatusCode h))
           (tracer.hops tst) →
    tracer.run net fuel tst = Some o →
    Forall (λ h, tracer.StatusCodeClass h = getStatusCodeClass (tracer.StatusCode h))
           (tracerHops o).
Proof.
  induction fuel as [|fuel IH]; intros tst o Hall; cbn [tracer.run]; [done |].
  pose proof (tracer_iteration_classes net tst Hall) as Hstep.
  destruct (tracer.iteration net tst) as [tst'|o']; [by apply IH |].
  by intros [= <-].
Qed.

(** X12. [followRedirects] of url-tracer.go returns what [followRedirects]
    of go-trace.go returns, with one more field in every hop: erasing
    that field gives the same outcome on every network and for every
    seed, and in every hop the field is the class that
    [getStatusCodeClass] gives to the status code of the hop. *)
Theorem tracer_followRedirects_erase net fuel (seed : string) :
  eraseOutcome <$> tracer.followRedirects net fuel seed
  = followRedirects net fuel seed
  ∧ ∀ o, tracer.followRedirects net fuel seed = Some o →
         Forall (λ h, tracer.StatusCodeClass h
                      = getStatusCodeClass (tracer.StatusCode h))
                (tracerHops o).
Proof.
  split.
  - unfold tracer.followRedirects, followRedirects. by rewrite tracer_run_erase.
  - intros o. apply tracer_run_classes. by apply Forall_nil.
Qed.

(** The later revision differs only where a request fails: there it ends
    the process with exit code 0. *)
Lemma rev2_iteration_cases net st :
  rev2.iteration net st = iteration net st
  ∨ (∃ printed, rev2.iteration net st = Done (Exit printed 0))
    ∧ ∃ o, iteration net st = Done o ∧ ∀ u hs cf, o ≠ Return u hs cf None.
Proof.
  unfold rev2.iteration, iteration.
  repeat case_match; try (by left); right; (split; [by eauto |]);
    eexists; (split; [reflexivity | done]).
Qed.

(** X13. The later revision of [followRedirects] in go-trace.go agrees
    with the earlier one on everything that is returned: what it returns
    the earlier one returns, every result without an error that the
    earlier one returns it returns too, and the two loops run out of fuel
    together.  Where they differ the later one ends the process with exit
    code 0. *)
Theorem rev2_followRedirects_agrees net fuel (seed : string) :
  (∀ u hs cf e,
     rev2.followRedirects net fuel seed = Some (Return u hs cf e) →
     followRedirects net fuel seed = Some (Return u hs cf e))
  ∧ (∀ u hs cf,
       followRedirects net fuel seed = Some (Return u hs cf None) →
       rev2.followRedirects net fuel seed = Some (Return u hs cf None))
  ∧ (rev2.followRedirects net fuel seed = None ↔ followRedirects net fuel seed = None)
  ∧ (rev2.followRedirects net fuel seed = followRedirects net fuel seed
     ∨ ∃ printed, rev2.followRedirects net fuel seed = Some (Exit printed 0)).
Proof.
  unfold rev2.followRedirects, followRedirects.
  generalize (initState seed). induction fuel as [|fuel IH]; intros st.
  { cbn. repeat split; try done. by left. }
  cbn [rev2.run run].
  destruct (rev2_iteration_cases net st) as [->|[[printed ->] (o & -> & Ho)]].
  - destruct (iteration net st) as [st'|o]; [apply IH |].
    repeat split; try done. by left.
  - repeat split; try done.
    + intros u hs cf [= ->]. by destruct (Ho u hs cf).
    + right. by exists printed.
Qed.

End Revisions.

(** ** Wrapping a URL *)

Lemma take_drop (s : string) : ∀ n, takeBytes n s +:+ dropBytes n s = s.
Proof.
  induction s as [|c s IH]; intros [|n]; try done.
  cbn [takeBytes dropBytes]. by rewrite append_cons, IH.
Qed.

Lemma drop_drop (s : string) :
  ∀ a b, dropBytes b (dropBytes a s) = dropBytes (a + b) s.
Proof.
  induction s as [|c s IH]; intros [|a] b; try done.
  - by destruct b.
  - cbn [dropBytes Nat.add]. apply IH.
Qed.

Lemma length_drop (s : string) :
  ∀ n, String.length (dropBytes n s) = (String.length s - n)%nat.
Proof.
  induction s as [|c s IH]; intros [|n]; try done. cbn [dropBytes]. apply IH.
Qed.

Lemma length_take (s : string) :
  ∀ n, String.length (takeBytes n s) = (n `min` String.length s)%nat.
Proof.
  induction s as [|c s IH]; intros [|n]; try done.
  cbn [takeBytes String.length]. by rewrite IH.
Qed.

Lemma take_all (s : string) :
  ∀ n, (String.length s ≤ n)%nat → takeBytes n s = s.
Proof.
  induction s as [|c s IH]; intros [|n] Hn; try done.
  - cbn in Hn. lia.
  - cbn [takeBytes]. rewrite IH; [done |]. cbn in Hn. lia.
Qed.

Lemma length_pos_nonempty (s : string) : (0 < String.length s)%nat → s ≠ EmptyString.
Proof. destruct s; cbn; [lia | done]. Qed.

Lemma formatLoop_done (continuation : string) (w : Z) (url : string) (fuel : nat)
    (i lineStart : Z) (acc : string) :
  len url ≤ i →
  formatLoop continuation w url fuel i lineStart acc = Some (Ok acc).
Proof.
  intros Hi. destruct fuel; cbn [formatLoop];
    by destruct (Z.ltb_spec i (len url)); [lia |].
Qed.

(** The loop of [formatURL] from the offset [k], when the width is at
    least 1 and smaller than the length. *)
Lemma formatLoop_wraps (continuation : string) (wn : nat) (url : string) :
  (1 ≤ wn < String.length url)%nat →
  2 * len url ≤ maxInt →
  ∀ fuel k acc,
    (k < String.length url)%nat →
    (String.length url - k ≤ fuel)%nat →
    ∃ lines,
      lines ≠ []
      ∧ formatLoop continuation (Z.of_nat wn) url fuel (Z.of_nat k) (Z.of_nat k) acc
        = Some (Ok (acc +:+ (if 0 <? Z.of_nat k then continuation else EmptyString)
                    +:+ joinLines continuation lines))
      ∧ concatLines lines = dropBytes k url
      ∧ Forall (λ l, (1 ≤ String.length l ≤ wn)%nat) lines.
Proof.
  intros Hw Hmax. unfold len in Hmax.
  induction fuel as [|fuel IH]; intros k acc Hk Hfuel; [lia |].
  cbn [formatLoop]. unfold len.
  destruct (Z.ltb_spec (Z.of_nat k) (Z.of_nat (String.length url))); [|lia].
  rewrite wrapInt_small by (unfold maxInt, intSize in *; lia).
  set (acc' := if 0 <? Z.of_nat k then acc +:+ continuation else acc).
  assert (Hacc : acc' = acc +:+ (if 0 <? Z.of_nat k then continuation else EmptyString)).
  { subst acc'. destruct (0 <? Z.of_nat k); [done | by rewrite append_empty_r]. }
  destruct (Z.ltb_spec (Z.of_nat (String.length url)) (Z.of_nat k + Z.of_nat wn))
    as [Hlast|Hmore].
  - (* the last line is shorter than the width *)
    unfold slice, len.
    destruct (Z.leb_spec 0 (Z.of_nat k)); [|lia].
    destruct (Z.leb_spec (Z.of_nat k) (Z.of_nat (String.length url))); [|lia].
    destruct (Z.leb_spec (Z.of_nat (String.length url)) (Z.of_nat (String.length url)));
      [|lia].
    cbn [andb]. rewrite Nat2Z.id.
    rewrite take_all by (rewrite length_drop; lia).
    rewrite formatLoop_done by (unfold len; lia).
    exists [dropBytes k url]. split; [done |]. split.
    { cbn [joinLines]. by rewrite Hacc, append_assoc. }
    split; [cbn [concatLines]; by rewrite append_empty_r |].
    apply Forall_singleton. rewrite length_drop. lia.
  - (* a full line *)
    unfold slice, len.
    destruct (Z.leb_spec 0 (Z.of_nat k)); [|lia].
    destruct (Z.leb_spec (Z.of_nat k) (Z.of_nat k + Z.of_nat wn)); [|lia].
    destruct (Z.leb_spec (Z.of_nat k + Z.of_nat wn) (Z.of_nat (String.length url)));
      [|lia].
    cbn [andb]. rewrite Nat2Z.id.
    replace (Z.to_nat (Z.of_nat k + Z.of_nat wn - Z.of_nat k)) with wn by lia.
    set (line := takeBytes wn (dropBytes k url)).
    assert (Hline : String.length line = wn).
    { subst line. rewrite length_take, length_drop. lia. }
    replace (Z.of_nat k + Z.of_nat wn) with (Z.of_nat (k + wn)) by lia.
    destruct (decide (k + wn < String.length url)%nat) as [Hlt|Hge].
    + destruct (IH (k + wn)%nat (acc' +:+ line) Hlt) as (lines & Hne & Hrun & Hcat & Hall);
        [lia |].
      exists (line :: lines). split; [done |]. split; [|split].
      * rewrite Hrun.
        destruct (Z.ltb_spec 0 (Z.of_nat (k + wn))); [|lia].
        destruct lines as [|l lines]; [done |].
        cbn [joinLines]. by rewrite Hacc, !append_assoc.
      * cbn [concatLines]. rewrite Hcat. subst line.
        by rewrite <- drop_drop, take_drop.
      * apply Forall_cons. split; [lia | done].
    + rewrite formatLoop_done by (unfold len; lia).
      exists [line]. split; [done |]. split; [|split].
      * cbn [joinLines]. by rewrite Hacc, append_assoc.
      * cbn [concatLines]. rewrite append_empty_r. subst line.
        apply take_all. rewrite length_drop. lia.
      * apply Forall_singleton. lia.
Qed.

(** X14. With a width of at least 1, [formatURL] returns, and it only
    breaks the URL into lines: the lines it writes, put together again
    without the line break and the 15 spaces between them, are the URL,
    no line is empty and no line is longer than the width.  A URL that
    fits into the width comes back unchanged.  (The URL is shorter than
    half the largest Go [int].) *)
Theorem formatURL_wraps (outputWidth : Z) (url : string) :
  1 ≤ outputWidth →
  2 * len url ≤ maxInt →
  ∀ fuel, (String.length url ≤ fuel)%nat →
    ∃ lines,
      formatURL outputWidth fuel url
      = Some (Ok (joinLines (nl +:+ strings_Repeat " " 15) lines))
      ∧ concatLines lines = url
      ∧ Forall (λ l, len l ≤ outputWidth) lines
      ∧ (len url ≤ outputWidth → lines = [url]).
Proof.
  intros Hw Hmax fuel Hfuel. unfold formatURL.
  destruct (Z.leb_spec (len url) outputWidth) as [Hfit|Hlong].
  - exists [url]. split; [done |]. split; [cbn; by rewrite append_empty_r |].
    split; [by apply Forall_singleton | done].
  - assert (Hwn : outputWidth = Z.of_nat (Z.to_nat outputWidth)) by lia.
    rewrite Hwn. unfold len in Hlong.
    destruct (formatLoop_wraps (nl +:+ strings_Repeat " " 15) (Z.to_nat outputWidth) url)
      with (fuel := fuel) (k := 0%nat) (acc := EmptyString)
      as (lines & Hne & Hrun & Hcat & Hall); try lia.
    exists lines. split; [|split; [|split]].
    + change (Z.of_nat 0) with 0 in Hrun. rewrite Hrun. done.
    + by rewrite Hcat.
    + eapply Forall_impl; [exact Hall |]. intros l Hl. cbn beta in Hl |- *.
      unfold len. lia.
    + unfold len. lia.
Qed.

(** X15. With the width 0, which [main] takes from [-w 0] as it is,
    [formatURL] never returns for a URL that is not empty: its loop does
    not advance.  The short printer, which formats the URL before it
    writes anything, then never writes. *)
Theorem formatURL_zero_width_diverges (url : string) :
  url ≠ EmptyString →
  ∀ fuel, formatURL 0 fuel url = None
          ∧ printShortTraceResult 0 fuel url = None.
Proof.
  intros Hne fuel.
  assert (Hlen : 0 < len url).
  { destruct url; [done |]. unfold len. cbn. lia. }
  assert (Hloop : ∀ acc, formatLoop (nl +:+ strings_Repeat " " 15) 0 url fuel 0 0 acc = None).
  { induction fuel as [|fuel IH]; intros acc; cbn [formatLoop];
      destruct (Z.ltb_spec 0 (len url)); try lia; [done |].
    change (wrapInt (0 + 0)) with 0.
    destruct (Z.ltb_spec (len url) 0); [lia |].
    unfold slice. destruct (Z.leb_spec 0 (len url)); [|lia].
    cbn. apply IH. }
  assert (Hfmt : formatURL 0 fuel url = None).
  { unfold formatURL. destruct (Z.leb_spec (len url) 0); [lia | apply Hloop]. }
  split; [done |]. unfold printShortTraceResult. by rewrite Hfmt.
Qed.

(** X16. With a negative width [formatURL] panics on every URL that is
    not empty: the first slice expression has a negative upper bound.
    The short printer then writes nothing. *)
Theorem formatURL_negative_width_panics (outputWidth : Z) (url : string) :
  - maxInt - 1 ≤ outputWidth < 0 →
  url ≠ EmptyString →
  ∀ fuel, (0 < fuel)%nat →
    formatURL outputWidth fuel url = Some (Err "slice bounds out of range")
    ∧ printShortTraceResult outputWidth fuel url = Some (Err "slice bounds out of range").
Proof.
  intros Hw Hne fuel Hfuel.
  assert (Hlen : 0 < len url).
  { destruct url; [done |]. unfold len. cbn. lia. }
  assert (Hfmt : formatURL outputWidth fuel url = Some (Err "slice bounds out of range")).
  { unfold formatURL. destruct (Z.leb_spec (len url) outputWidth); [lia |].
    destruct fuel as [|fuel]; [lia |]. cbn [formatLoop].
    destruct (Z.ltb_spec 0 (len url)); [|lia].
    rewrite Z.add_0_l, wrapInt_small by (unfold maxInt, intSize in *; lia).
    destruct (Z.ltb_spec (len url) outputWidth); [lia |].
    unfold slice. destruct (Z.leb_spec 0 outputWidth); [lia |]. done. }
  split; [done |]. unfold printShortTraceResult. by rewrite Hfmt.
Qed.

(** X17. When [formatURL] returns, the short printer writes the final URL
    as formatted, and after it the clean URL exactly when the URL holds
    a ['?']. *)
Theorem printShortTraceResult_clean_line (outputWidth : Z) (fuel : nat)
    (redirectURL formatted : string) :
  formatURL outputWidth fuel redirectURL = Some (Ok formatted) →
  printShortTraceResult outputWidth fuel redirectURL =
  Some (Ok ((nl +:+ boldBlue +:+ "Final URL" +:+ reset +:+ ":     " +:+ formatted +:+ nl)
            +:+ (if strings.Contains redirectURL "?"
                 then nl +:+ green +:+ "Clean URL" +:+ reset +:+ ":     "
                      +:+ makeCleanURL redirectURL +:+ nl
                 else EmptyString)
            +:+ nl)).
Proof.
  intros Hfmt. unfold printShortTraceResult. rewrite Hfmt.
  destruct (String.eqb_spec (makeCleanURL redirectURL) redirectURL) as [Heq|Hneq];
    cbn [negb].
  - apply makeCleanURL_fixed in Heq as ->. by rewrite append_empty_l.
  - destruct (strings.Contains redirectURL "?") eqn:Hc.
    + by rewrite !append_assoc.
    + by apply makeCleanURL_fixed in Hc.
Qed.

(** ** More on what the loop carries and returns *)

Section Ledger.

Context `{NetLib}.
Implicit Types (net : Network) (st : State).

Lemma redirectTarget_parsed previousURL location reqURL (s : string) (p : url.URL) :
  redirectTarget previousURL location reqURL = Ok (s, p) → url_Parse s = Ok p.
Proof.
  unfold redirectTarget, bind. intros Ht.
  repeat case_match; try discriminate. by injection Ht as <- <-.
Qed.

(** X18. From the second iteration on, the URL that the loop keeps as
    [previousURL] is the parsed form of the URL it is about to request,
    not of the one before it: a [Location] without scheme or host is
    completed from the URL whose answer carried it.  Only the first
    iteration has no [previousURL] and falls back on the URL of the
    request. *)
Theorem previousURL_is_current net seed n st :
  stateAt net n (initState seed) = Some st →
  match previousURL st with
  | None => n = 0%nat ∧ urlStr st = seed
  | Some p => (0 < n)%nat ∧ url_Parse (urlStr st) = Ok p
  end.
Proof.
  intros Hst. destruct (stateAt_init _ _ _ _ Hst) as (_ & Hlen & _).
  rewrite <- Hlen. clear Hlen. revert Hst.
  apply (stateAt_preserves net
    (λ st, match previousURL st with
           | None => length (hops st) = 0%nat ∧ urlStr st = seed
           | Some p => (0 < length (hops st))%nat ∧ url_Parse (urlStr st) = Ok p
           end)).
  - intros st1 st2 _ Hit.
    apply iteration_Continue in Hit as (q & resp & s & p & _ & _ & _ & _ & Ht & ->).
    cbn [previousURL hops urlStr]. rewrite length_app. cbn [length].
    split; [lia |]. by eapply redirectTarget_parsed.
  - by cbn.
Qed.

(** X19. A result without an error always carries a hop list that is not
    nil; and the Cloudflare flag is returned set only together with the
    empty string, an empty hop list and no error. *)
Theorem cloudflare_flag_only_with_empty_result net fuel seed u hs cf e :
  followRedirects net fuel seed = Some (Return u hs cf e) →
  (e = None → hs ≠ None)
  ∧ (cf = true → u = EmptyString ∧ hs = Some [] ∧ e = None).
Proof.
  unfold followRedirects. intros Hrun.
  apply run_Some in Hrun as (n & st & _ & Hst & Hit).
  destruct (stateAt_init _ _ _ _ Hst) as (Hcf & _).
  unfold iteration in Hit. rewrite Hcf in Hit.
  repeat case_match; try discriminate; inject_results; subst; by split.
Qed.

Lemma first_hop_invariant net seed n st :
  stateAt net n (initState seed) = Some st →
  match hops st with
  | [] => urlStr st = seed ∧ number st = 1
  | h :: _ => URL h = seed ∧ Number h = 1
  end.
Proof.
  apply (stateAt_preserves net
    (λ st, match hops st with
           | [] => urlStr st = seed ∧ number st = 1
           | h :: _ => URL h = seed ∧ Number h = 1
           end)).
  - intros st1 st2 Hinv Hit.
    apply iteration_Continue in Hit as (q & resp & s & p & _ & _ & _ & _ & _ & ->).
    cbn [hops]. by destruct (hops st1).
  - done.
Qed.

(** X20. Every ledger that [followRedirects] returns without an error
    and that is not empty starts with the seed URL, as hop number 1. *)
Theorem ledger_starts_with_seed net fuel seed u hs cf :
  followRedirects net fuel seed = Some (Return u (Some hs) cf None) →
  hs = []
  ∨ ∃ h rest, hs = h :: rest ∧ URL h = seed ∧ Number h = 1.
Proof.
  intros Hrun.
  apply followRedirects_returns in Hrun
    as [[? _]|(n & st & c & Hst & _ & Hshape)]; [by left | right].
  pose proof (first_hop_invariant _ _ _ _ Hst) as Hfirst.
  destruct (hops st) as [|h0 hs0] eqn:Hh.
  - destruct Hfirst as [Hu Hn].
    destruct Hshape as [(-> & _)|(-> & _)]; eexists _, _; by cbn.
  - destruct Hfirst as [Hu Hn].
    destruct Hshape as [(-> & _)|(-> & _)]; eexists _, _; by cbn.
Qed.

End Ledger.

(** ** The further theorems at concrete inputs *)

Lemma scenario_A_run :
  followRedirects ex.net_A 2 "http://a/1"
  = Some (Return "http://a/b" (Some ex2.hops_A) false None).
Proof. vm_compute. reflexivity. Qed.

Lemma visits_count_requests_witness :
  visits (visitedURLs ex.self_loop_state) "http://a/1" = 2
  ∧ (requests "http://a/1" (hops ex.self_loop_state) ≤ 1)%nat.
Proof.
  destruct (visits_count_requests (H := RefLib) (ex.net_redirect "http://a/1")
              "http://a/1" 1 ex.self_loop_state "http://a/1")
    as (_ & _ & Hle); [vm_compute; reflexivity |].
  split; [vm_compute; reflexivity | exact Hle].
Defined.

Lemma followRedirects_terminates_witness :
  ∃ o, followRedirects ex.net_ok 2 "http://a/1" = Some o.
Proof.
  refine (followRedirects_terminates (H := RefLib) ex.net_ok "http://a/1"
            {["http://a/1"]} _).
  intros [|n] st.
  - intros [= <-]. by apply elem_of_singleton.
  - cbn [stateAt].
    assert (iteration ex.net_ok (initState "http://a/1")
            = Done (Return "http://a/1" (Some [mkHop 1 "http://a/1" 200]) false None))
      as -> by (vm_compute; reflexivity).
    discriminate.
Defined.

Lemma final_url_is_last_hop_witness :
  URL <$> last ex2.hops_A = Some "http://a/b".
Proof.
  destruct (final_url_is_last_hop (H := RefLib) ex.net_A 2 "http://a/1"
              "http://a/b" ex2.hops_A false scenario_A_run)
    as [[Hnil _]|[_ Hlast]]; [unfold ex2.hops_A in Hnil; discriminate Hnil | exact Hlast].
Defined.

Lemma ledger_statuses_witness :
  ∃ front lastHop,
    ex2.hops_A = front ++ [lastHop]
    ∧ Forall (λ h, 300 ≤ StatusCode h ≤ 399) front
    ∧ ¬ (300 ≤ StatusCode lastHop ≤ 399).
Proof.
  destruct (ledger_statuses (H := RefLib) ex.net_A 2 "http://a/1"
              "http://a/b" ex2.hops_A false scenario_A_run)
    as [Hnil|Hshape]; [unfold ex2.hops_A in Hnil; discriminate Hnil | exact Hshape].
Defined.

Lemma ledger_numbers_witness :
  Number <$> ex2.hops_A = [1; 2].
Proof.
  destruct (ledger_numbers (H := RefLib) ex.net_A 2 "http://a/1"
              "http://a/b" ex2.hops_A false scenario_A_run)
    as [Hnum|(front & lastHop & Heq & _ & Hn & _)]; [by vm_compute | exact Hnum |].
  exfalso. unfold ex2.hops_A in Heq.
  destruct front as [|h1 [|h2 [|h3 front]]]; try discriminate Heq.
  injection Heq as _ <-. discriminate Hn.
Defined.

Lemma relative_redirect_error_is_parse_error_witness :
  followRedirects (ex.net_redirect "%zz") 1 "http://a/1"
  = Some (Return EmptyString None false (Some ex2.bad_location))
  ∧ lib_error "invalid URL escape" ≠ MissingScheme.
Proof.
  split; [vm_compute; reflexivity |].
  refine (proj1 (proj2 (relative_redirect_error_is_parse_error (H := RefLib)
                          (ex.net_redirect "%zz") 1 "http://a/1"
                          EmptyString None false _ _))).
  vm_compute. reflexivity.
Defined.

Lemma failed_request_ends_resolution_witness :
  followRedirects ex.net_down 1 "http://a/1"
  = Some (Return EmptyString None false
            (Some (fmt_Errorf "error accessing URL: "
                     (lib_error "dial tcp: no route to host")))).
Proof.
  refine (failed_request_ends_resolution (H := RefLib) ex.net_down "http://a/1" 0
            (initState "http://a/1") ex.a_1 ex2.refused _ _ _ _ 1%nat _);
    [reflexivity | by vm_compute | reflexivity | reflexivity | lia].
Defined.

Lemma formatURL_wraps_witness :
  ∃ lines,
    formatURL 4 10 "abcdefghij"
    = Some (Ok (joinLines (nl +:+ strings_Repeat " " 15) lines))
    ∧ concatLines lines = "abcdefghij"
    ∧ Forall (λ l, len l ≤ 4) lines
    ∧ (len "abcdefghij" ≤ 4 → lines = ["abcdefghij"]).
Proof.
  refine (formatURL_wraps 4 "abcdefghij" _ _ 10%nat _);
    [lia | by vm_compute | cbn; lia].
Defined.

Lemma formatURL_zero_width_diverges_witness :
  formatURL 0 1000 "abc" = None ∧ printShortTraceResult 0 1000 "abc" = None.
Proof.
  refine (formatURL_zero_width_diverges "abc" _ 1000%nat). discriminate.
Defined.

Lemma formatURL_negative_width_panics_witness :
  formatURL (-3) 1 "abc" = Some (Err "slice bounds out of range")
  ∧ printShortTraceResult (-3) 1 "abc" = Some (Err "slice bounds out of range").
Proof.
  refine (formatURL_negative_width_panics (-3) "abc" _ _ 1%nat _);
    [by vm_compute | discriminate | lia].
Defined.

Lemma printShortTraceResult_clean_line_witness :
  printShortTraceResult 120 0 "http://a/b?x=1" =
  Some (Ok ((nl +:+ boldBlue +:+ "Final URL" +:+ reset +:+ ":     "
                +:+ "http://a/b?x=1" +:+ nl)
            +:+ (nl +:+ green +:+ "Clean URL" +:+ reset +:+ ":     "
                    +:+ "http://a/b" +:+ nl)
            +:+ nl)).
Proof.
  refine (printShortTraceResult_clean_line 120 0 "http://a/b?x=1" "http://a/b?x=1" _).
  reflexivity.
Defined.

Lemma previousURL_is_current_witness :
  url_Parse (urlStr ex.self_loop_state) = Ok ex.a_1.
Proof.
  refine (proj2 (previousURL_is_current (H := RefLib) (ex.net_redirect "http://a/1")
                   "http://a/1" 1 ex.self_loop_state _)).
  vm_compute. reflexivity.
Defined.

Lemma cloudflare_flag_only_with_empty_result_witness :
  followRedirects (ex.net_no_location "cloudflare") 1 "http://a/1"
  = Some (Return EmptyString (Some []) true None)
  ∧ Some (@nil Hop) ≠ None.
Proof.
  split; [vm_compute; reflexivity |].
  refine (proj1 (cloudflare_flag_only_with_empty_result (H := RefLib)
                   (ex.net_no_location "cloudflare") 1 "http://a/1"
                   EmptyString (Some []) true None _) eq_refl).
  vm_compute. reflexivity.
Defined.

Lemma ledger_starts_with_seed_witness :
  ∃ h rest, ex2.hops_A = h :: rest ∧ URL h = "http://a/1" ∧ Number h = 1.
Proof.
  destruct (ledger_starts_with_seed (H := RefLib) ex.net_A 2 "http://a/1"
              "http://a/b" ex2.hops_A false scenario_A_run)
    as [Hnil|Hshape]; [unfold ex2.hops_A in Hnil; discriminate Hnil | exact Hshape].
Defined.
